(** * pgdatahub: a shallow embedding of [main.py]

    The batch loader of [main.py] finds tabular files, reads them into
    DataFrames, normalises file and column names, derives one SQL schema per
    table and copies the tables into PostgreSQL inside one transaction.

    Python strings are sequences of Unicode code points; they are embedded as
    lists of [N].  Dictionaries keep insertion order and are embedded as
    association lists.  Calls that leave the process (file system, parsers,
    database driver, logger) are recorded in a trace and answered by an
    environment that decides which of them raise. *)

From Stdlib Require Import List NArith ZArith Bool Lia String Ascii Arith.
Import ListNotations.

Set Implicit Arguments.

(** ** Python strings *)

Definition codepoint := N.
Definition str := list codepoint.

(** An ASCII literal of the source, as a sequence of code points. *)
Definition lit (s : string) : str := map N_of_ascii (list_ascii_of_string s).

Definition DOT : codepoint := 46%N.
Definition UNDERSCORE : codepoint := 95%N.
Definition SLASH : codepoint := 47%N.

Fixpoint str_eqb (a b : str) : bool :=
  match a, b with
  | [], [] => true
  | x :: a', y :: b' => N.eqb x y && str_eqb a' b'
  | _, _ => false
  end.

(** [x in l] for a list of strings [l]. *)
Definition str_in (x : str) (l : list str) : bool := existsb (str_eqb x) l.

(** [s.startswith(prefix)] *)
Fixpoint startswith (s prefix : str) : bool :=
  match prefix, s with
  | [], _ => true
  | p :: ps, c :: cs => N.eqb c p && startswith cs ps
  | _ :: _, [] => false
  end.

(** [s.endswith(suffix)] *)
Definition endswith (s suffix : str) : bool := startswith (rev s) (rev suffix).

(** [sub in s] *)
Fixpoint contains (s sub : str) : bool :=
  startswith s sub ||
  match s with
  | [] => false
  | _ :: r => contains r sub
  end.

(** [s.split(sep)] for a one-character separator: the pieces between the
    occurrences of [sep], never an empty list. *)
Fixpoint split (sep : codepoint) (s : str) : list str :=
  match s with
  | [] => [[]]
  | c :: r =>
      if N.eqb c sep then [] :: split sep r
      else match split sep r with
           | p :: ps => (c :: p) :: ps
           | [] => [[c]]
           end
  end.

(** [s.replace(old, new)] for a one-character [old]. *)
Definition replace (old : codepoint) (new : str) (s : str) : str :=
  flat_map (fun c => if N.eqb c old then new else [c]) s.

(** [str.maketrans(x, y)] and [s.translate(table)]. *)
Definition maketrans (x y : str) : list (codepoint * codepoint) := combine x y.

Definition translate_cp (table : list (codepoint * codepoint)) (c : codepoint) : codepoint :=
  match find (fun kv => N.eqb (fst kv) c) table with
  | Some kv => snd kv
  | None => c
  end.

Definition translate (table : list (codepoint * codepoint)) (s : str) : str :=
  map (translate_cp table) s.

(** [s.lstrip(chars)], [s.rstrip(chars)], [s.strip(chars)] *)
Fixpoint lstrip (chars s : str) : str :=
  match s with
  | [] => []
  | c :: r => if existsb (N.eqb c) chars then lstrip chars r else s
  end.

Definition rstrip (chars s : str) : str := rev (lstrip chars (rev s)).

Definition strip (chars s : str) : str := rstrip chars (lstrip chars s).

(** [sep.join(parts)] *)
Fixpoint join (sep : str) (parts : list str) : str :=
  match parts with
  | [] => []
  | [p] => p
  | p :: ps => p ++ sep ++ join sep ps
  end.

(** Character ranges of the regular expressions. *)
Definition in_range (lo hi c : codepoint) : bool := N.leb lo c && N.leb c hi.
Definition is_ascii (c : codepoint) : bool := N.ltb c 128%N.
Definition is_lower (c : codepoint) : bool := in_range 97%N 122%N c.
Definition is_upper (c : codepoint) : bool := in_range 65%N 90%N c.
Definition is_digit (c : codepoint) : bool := in_range 48%N 57%N c.
Definition is_underscore (c : codepoint) : bool := N.eqb c UNDERSCORE.

(** [re.sub(r"[...]", repl, s)]: every character of the class is replaced. *)
Definition re_sub_class (cls : codepoint -> bool) (repl s : str) : str :=
  flat_map (fun c => if cls c then repl else [c]) s.

(** [re.sub(r"c+", repl, s)] for a character class [c]: scanning from the
    left, every maximal run of class characters is one match. *)
Fixpoint re_sub_plus (cls : codepoint -> bool) (repl s : str) : str :=
  match s with
  | [] => []
  | c :: r =>
      if cls c then
        repl ++ (fix skip (t : str) : str :=
                   match t with
                   | [] => []
                   | d :: t' => if cls d then skip t' else d :: re_sub_plus cls repl t'
                   end) r
      else c :: re_sub_plus cls repl r
  end.

(** The lower-casing of ASCII. *)
Definition ascii_lower (c : codepoint) : codepoint :=
  if is_upper c then (c + 32)%N else c.

(** Python's Unicode database is not part of the repository.  [str.lower()]
    and [str.isdigit()] are taken as an interface, with the three facts about
    them that the program relies on: on ASCII text [lower] is the ASCII
    lower-casing; no lower-case mapping produces an ASCII capital; on an
    ASCII character [isdigit] holds exactly of 0-9. *)
Class Unicode := {
  str_lower : str -> str;
  chr_isdigit : codepoint -> bool;
  str_lower_ascii :
    forall s, forallb is_ascii s = true -> str_lower s = map ascii_lower s;
  str_lower_no_upper :
    forall s, forallb (fun c => negb (is_upper c)) (str_lower s) = true;
  chr_isdigit_ascii :
    forall c, is_ascii c = true -> chr_isdigit c = is_digit c
}.

(** A concrete reading of the interface: the case mapping of Basic Latin and
    Latin-1, of the dotted capital I (one character becomes two) and of the
    Kelvin sign; the digits of ASCII, the superscripts of Latin-1 and the
    Arabic-Indic digits. *)
Definition basic_lower_cp (c : codepoint) : str :=
  if is_upper c then [(c + 32)%N]
  else if in_range 192%N 222%N c && negb (N.eqb c 215%N) then [(c + 32)%N]
  else if N.eqb c 304%N then [105; 775]%N
  else if N.eqb c 8490%N then [107%N]
  else [c].

Definition basic_lower (s : str) : str := flat_map basic_lower_cp s.

Definition basic_isdigit (c : codepoint) : bool :=
  is_digit c || N.eqb c 178%N || N.eqb c 179%N || N.eqb c 185%N || in_range 1632%N 1641%N c.

(** ** The name normaliser *)

(** [TR_MAPPING = str.maketrans("ıİğĞüÜşŞöÖçÇ", "iIgGuUsSoOcC")] *)
Definition TR_MAPPING : list (codepoint * codepoint) :=
  maketrans [305; 304; 287; 286; 252; 220; 351; 350; 246; 214; 231; 199]%N
            (lit "iIgGuUsSoOcC").

(** The class [[^a-zA-Z0-9_]] of [clean_text]. *)
Definition special_char (c : codepoint) : bool :=
  negb (is_lower c || is_upper c || is_digit c || is_underscore c).

Section CleanText.
Context {U : Unicode}.

Definition clean_text (text : str) : str :=
  (* remove the file extension *)
  let base_name :=
    if contains text (lit ".") && negb (startswith text (lit "."))
    then hd [] (split DOT text)
    else text in
  (* replace dots in column names with underscores *)
  let text := replace DOT (lit "_") base_name in
  (* replace turkish characters and lower all characters *)
  let text := str_lower (translate TR_MAPPING text) in
  (* replace special characters with underscores *)
  let text := re_sub_class special_char (lit "_") text in
  (* ensure there is only one underscore between words *)
  let text := re_sub_plus is_underscore (lit "_") text in
  (* remove leading and trailing underscores *)
  let text := strip (lit "_") text in
  (* prefix with col_ if it starts with a number *)
  match text with
  | c :: _ => if chr_isdigit c then lit "col_" ++ text else text
  | [] => text
  end.

End CleanText.

(** The normaliser as section 4.1 of the specification words it, step by
    step (a) to (g); it is compared with [clean_text] below. *)

Definition has_char (c : codepoint) (s : str) : bool := existsb (N.eqb c) s.

Definition starts_with_char (c : codepoint) (s : str) : bool :=
  match s with
  | x :: _ => N.eqb x c
  | [] => false
  end.

Fixpoint before_first (c : codepoint) (s : str) : str :=
  match s with
  | [] => []
  | x :: r => if N.eqb x c then [] else x :: before_first c r
  end.

(** (a) strip everything from the first dot onward, unless the text has no
    dot or starts with one *)
Definition strip_extension (s : str) : str :=
  if has_char DOT s && negb (starts_with_char DOT s) then before_first DOT s else s.

(** (b) remaining dots become underscores *)
Definition dots_to_underscores (s : str) : str :=
  map (fun c => if N.eqb c DOT then UNDERSCORE else c) s.

(** (c) the twelve Turkish letters and their ASCII equivalents *)
Definition turkish_to_ascii (c : codepoint) : codepoint :=
  match c with
  | 305%N => 105%N (* dotless i -> i *)
  | 304%N => 73%N  (* dotted capital I -> I *)
  | 287%N => 103%N (* g breve -> g *)
  | 286%N => 71%N  (* G breve -> G *)
  | 252%N => 117%N (* u diaeresis -> u *)
  | 220%N => 85%N  (* U diaeresis -> U *)
  | 351%N => 115%N (* s cedilla -> s *)
  | 350%N => 83%N  (* S cedilla -> S *)
  | 246%N => 111%N (* o diaeresis -> o *)
  | 214%N => 79%N  (* O diaeresis -> O *)
  | 231%N => 99%N  (* c cedilla -> c *)
  | 199%N => 67%N  (* C cedilla -> C *)
  | _ => c
  end.

(** (d) the safe alphabet [[a-z0-9_]] *)
Definition safe_char (c : codepoint) : bool :=
  is_lower c || is_digit c || is_underscore c.

Definition unsafe_to_underscore (s : str) : str :=
  map (fun c => if safe_char c then c else UNDERSCORE) s.

(** (e) an underscore that follows an underscore is dropped *)
Fixpoint collapse_underscores (s : str) : str :=
  match s with
  | [] => []
  | a :: r =>
      match r with
      | b :: _ =>
          if is_underscore a && is_underscore b then collapse_underscores r
          else a :: collapse_underscores r
      | [] => [a]
      end
  end.

(** (f) leading and trailing underscores *)
Fixpoint drop_leading (c : codepoint) (s : str) : str :=
  match s with
  | [] => []
  | x :: r => if N.eqb x c then drop_leading c r else s
  end.

Fixpoint drop_trailing (c : codepoint) (s : str) : str :=
  match s with
  | [] => []
  | x :: r =>
      match drop_trailing c r with
      | [] => if N.eqb x c then [] else [x]
      | r' => x :: r'
      end
  end.

(** (g) a result that starts with a digit gets the prefix *)
Definition prefix_digit (s : str) : str :=
  match s with
  | c :: _ => if is_digit c then lit "col_" ++ s else s
  | [] => []
  end.

Section CleanTextSpec.
Context {U : Unicode}.

Definition clean_text_spec (text : str) : str :=
  prefix_digit
    (drop_trailing UNDERSCORE
       (drop_leading UNDERSCORE
          (collapse_underscores
             (unsafe_to_underscore
                (str_lower
                   (map turkish_to_ascii
                      (dots_to_underscores (strip_extension text)))))))).

End CleanTextSpec.

(** What the specification promises of a normalised name. *)
Fixpoint no_double_underscore (s : str) : bool :=
  match s with
  | [] => true
  | a :: r =>
      match r with
      | b :: _ => negb (is_underscore a && is_underscore b) && no_double_underscore r
      | [] => true
      end
  end.

Definition starts_with_digit (s : str) : bool :=
  match s with
  | c :: _ => is_digit c
  | [] => false
  end.

Definition ends_with_char (c : codepoint) (s : str) : bool :=
  starts_with_char c (rev s).

(** ** Dictionaries

    A Python [dict] keeps its keys in insertion order; assigning to a key
    that is present keeps its place. *)

Definition dict (V : Type) := list (str * V).

Fixpoint dict_get {V : Type} (k : str) (d : dict V) : option V :=
  match d with
  | [] => None
  | (k', v) :: r => if str_eqb k' k then Some v else dict_get k r
  end.

(** [d[k] = v] *)
Fixpoint dict_set {V : Type} (k : str) (v : V) (d : dict V) : dict V :=
  match d with
  | [] => [(k, v)]
  | (k', v') :: r => if str_eqb k' k then (k', v) :: r else (k', v') :: dict_set k v r
  end.

(** [d.pop(k)]: the value and the rest, or [None] where Python raises KeyError. *)
Fixpoint dict_pop {V : Type} (k : str) (d : dict V) : option (V * dict V) :=
  match d with
  | [] => None
  | (k', v) :: r =>
      if str_eqb k' k then Some (v, r)
      else match dict_pop k r with
           | Some (x, r') => Some (x, (k', v) :: r')
           | None => None
           end
  end.

Definition dict_keys {V : Type} (d : dict V) : list str := map fst d.
Definition dict_values {V : Type} (d : dict V) : list V := map snd d.

(** ** DataFrames

    A DataFrame is seen through its column labels, the names of its column
    dtypes ([str(dtype)]) and its rows of cells. *)

(** A column label is a str or another object: the header cells of a
    workbook that hold a number or a date give an int, a float or a
    Timestamp.  Such a label is seen through the name of its type and
    through [str(label)]. *)
Inductive label :=
| LStr (text : str)
| LOther (type_name : str) (text : str).

(** [str(label)], as an f-string formats a label. *)
Definition label_str (col : label) : str :=
  match col with
  | LStr text => text
  | LOther _ text => text
  end.

Record DataFrame := {
  columns : list label;
  dtypes : list str;
  rows : list (list str)
}.

(** [df.columns = cols] *)
Definition set_columns (df : DataFrame) (cols : list label) : DataFrame :=
  {| columns := cols; dtypes := dtypes df; rows := rows df |}.

(** map pandas dtypes to sql data types *)
Definition DTYPE_MAPPING : dict str :=
  [ (lit "int8", lit "SMALLINT");
    (lit "int16", lit "SMALLINT");
    (lit "int32", lit "INTEGER");
    (lit "int64", lit "BIGINT");
    (lit "uint8", lit "SMALLINT");
    (lit "uint16", lit "INTEGER");
    (lit "uint32", lit "BIGINT");
    (lit "uint64", lit "BIGINT");
    (lit "float16", lit "REAL");
    (lit "float32", lit "REAL");
    (lit "float64", lit "DOUBLE PRECISION");
    (lit "decimal", lit "NUMERIC");
    (lit "datetime64[ns]", lit "TIMESTAMP");
    (lit "datetime64[us]", lit "TIMESTAMP");
    (lit "datetime64[ms]", lit "TIMESTAMP");
    (lit "datetime64[s]", lit "TIMESTAMP");
    (lit "datetime64[D]", lit "DATE");
    (lit "timedelta64[ns]", lit "INTERVAL");
    (lit "timedelta64[us]", lit "INTERVAL");
    (lit "timedelta64[ms]", lit "INTERVAL");
    (lit "timedelta64[s]", lit "INTERVAL");
    (lit "timedelta64[D]", lit "INTERVAL");
    (lit "bool", lit "BOOLEAN");
    (lit "object", lit "VARCHAR");
    (lit "string", lit "VARCHAR");
    (lit "category", lit "VARCHAR");
    (lit "bytes", lit "BYTEA");
    (lit "default", lit "VARCHAR") ].

(** [dtype == key], the comparison that [replace] makes between a dtype of
    [df.dtypes], seen through its name, and a key of the mapping.  numpy and
    pandas read the key as the name of a dtype: a dtype equals the string
    that is its name, and the str dtype of pandas 3 equals "string" as
    well.  No dtype equals two keys of [DTYPE_MAPPING]. *)
Definition dtype_eq (name key : str) : bool :=
  str_eqb name key || (str_eqb name (lit "str") && str_eqb key (lit "string")).

(** [series.replace(mapping)] on the dtypes of a frame: a value that equals
    a key of the mapping is replaced by what the mapping gives; any other
    value stays as it is. *)
Definition series_replace (mapping : dict str) (values : list str) : list str :=
  map (fun v => match find (fun kv => dtype_eq v (fst kv)) mapping with
                | Some kv => snd kv
                | None => v
                end) values.

(** ** Paths ([posixpath]) *)

(** [s.rfind(c)]: the index of the last occurrence, or -1. *)
Fixpoint rfind_from (c : codepoint) (s : str) (i last : Z) : Z :=
  match s with
  | [] => last
  | x :: r => rfind_from c r (i + 1)%Z (if N.eqb x c then i else last)
  end.

Definition rfind (c : codepoint) (s : str) : Z := rfind_from c s 0%Z (-1)%Z.

(** [os.path.splitext(p)]: the extension starts at the last dot of the last
    path component, unless only dots precede it there. *)
Definition splitext (p : str) : str * str :=
  let sepIndex := rfind SLASH p in
  let dotIndex := rfind DOT p in
  if Z.ltb sepIndex dotIndex then
    (* skip all leading dots *)
    let filenameIndex := Z.to_nat (sepIndex + 1) in
    let leading := firstn (Z.to_nat dotIndex - filenameIndex) (skipn filenameIndex p) in
    if existsb (fun c => negb (N.eqb c DOT)) leading
    then (firstn (Z.to_nat dotIndex) p, skipn (Z.to_nat dotIndex) p)
    else (p, [])
  else (p, []).

(** [os.path.join(a, b)] *)
Definition path_join (a b : str) : str :=
  if startswith b (lit "/") then b
  else if match a with [] => true | _ :: _ => false end || endswith a (lit "/") then a ++ b
  else a ++ lit "/" ++ b.

(** ** Effects *)

Inductive exn_class :=
| OSError | ValueError | KeyError | TypeError | JSONDecodeError | ParserError | DatabaseError.

(** An exception below [Exception]: its class and [str(e)]. *)
Record exn := { exn_cls : exn_class; exn_msg : str }.

Definition is_class (c : exn_class) (e : exn) : bool :=
  match c, exn_cls e with
  | OSError, OSError | ValueError, ValueError | KeyError, KeyError
  | TypeError, TypeError
  | JSONDecodeError, JSONDecodeError | ParserError, ParserError
  | DatabaseError, DatabaseError => true
  | _, _ => false
  end.

Inductive result (A : Type) :=
| Ok (a : A)
| Raise (e : exn).
Arguments Ok {A} a.
Arguments Raise {A} e.

Inductive level := DEBUG | INFO | WARNING | ERROR.

(** The arguments of a logging call. *)
Inductive log_arg :=
| AStr (s : str)
| AInt (n : nat)
| AList (l : list str).

(** The calls that leave the process. *)
Inductive op :=
| Log (lvl : level) (fmt : str) (args : list log_arg)
| Listdir (path : str)
| Makedirs (path : str)
| Rename (src dst : str)
| ReadCsv (path : str)
| ReadExcel (path : str)
| OpenRead (path : str)
| CloseFile (path : str)
| JsonLoad (path : str)
| JsonNormalize (path : str)
| ToCsv (path : str) (header : list label) (df : DataFrame)
| Connect (params : dict str)
| OpenCursor
| Execute (sql : str) (args : list str)
| CopyExpert (sql : str) (path : str)
| Commit
| Rollback
| CloseCursor
| CloseConn.

Inductive event :=
| Done (o : op)
| Failed (o : op) (e : exn).

(** The environment of a run: what the calls find, and which of them raise. *)
Record env := {
  cwd : str;                                (* os.getcwd() *)
  dir_entries : str -> list str;            (* os.listdir(path) *)
  csv_table : str -> DataFrame;             (* pd.read_csv(path) *)
  excel_sheets : str -> dict DataFrame;     (* pd.read_excel(path, sheet_name=None) *)
  json_table : str -> DataFrame;            (* pd.json_normalize(json.load(file)) *)
  json_config : str -> dict (dict str);     (* json.load(file) of a configuration *)
  raises : op -> option exn
}.

(** A computation yields a value or raises, and leaves a trace of its calls. *)
Definition M (A : Type) : Type := result A * list event.

Definition ret {A : Type} (a : A) : M A := (Ok a, []).

Definition bind {A B : Type} (m : M A) (k : A -> M B) : M B :=
  match m with
  | (Ok a, t) => let (r, t') := k a in (r, t ++ t')
  | (Raise e, t) => (Raise e, t)
  end.

Definition raise {A : Type} (e : exn) : M A := (Raise e, []).

(** [try: m  except Exception as e: h e] *)
Definition try_except {A : Type} (m : M A) (h : exn -> M A) : M A :=
  match m with
  | (Ok a, t) => (Ok a, t)
  | (Raise e, t) => let (r, t') := h e in (r, t ++ t')
  end.

(** [try: m  except cls as e: h e]: any other class goes through. *)
Definition try_except_class {A : Type} (cls : exn_class) (m : M A) (h : exn -> M A) : M A :=
  try_except m (fun e => if is_class cls e then h e else raise e).

(** A call that the environment may make raise. *)
Definition call (E : env) (o : op) : M unit :=
  match raises E o with
  | None => (Ok tt, [Done o])
  | Some e => (Raise e, [Failed o e])
  end.

(** A call that always returns: logging, and the release of a resource. *)
Definition emit (o : op) : M unit := (Ok tt, [Done o]).

Definition log (lvl : level) (fmt : string) (args : list log_arg) : M unit :=
  emit (Log lvl (lit fmt) args).

Declare Scope writer_scope.
Delimit Scope writer_scope with writer.
Notation "x <- m ;; k" := (bind m (fun x => k))
  (at level 61, m at next level, right associativity) : writer_scope.
Notation "' p <- m ;; k" := (bind m (fun p => k))
  (at level 61, p pattern, m at next level, right associativity) : writer_scope.
Notation "m ;; k" := (bind m (fun _ => k))
  (at level 61, right associativity) : writer_scope.
Open Scope writer_scope.

(** [with enter as x: body x], the context manager releasing with [release]:
    the release runs however the body ends. *)
Definition with_ {A B : Type} (enter : M A) (release : M unit) (body : A -> M B) : M B :=
  x <- enter ;;
  match body x with
  | (Ok b, t) => let (r, t') := release in
                 (match r with Ok _ => Ok b | Raise e => Raise e end, t ++ t')
  | (Raise e, t) => let (r, t') := release in
                    (match r with Ok _ => Raise e | Raise e' => Raise e' end, t ++ t')
  end.

(** [for x in l: body x] *)
Fixpoint for_each {A : Type} (l : list A) (body : A -> M unit) : M unit :=
  match l with
  | [] => ret tt
  | x :: r => body x ;; for_each r body
  end.

(** A loop that updates local variables [acc]. *)
Fixpoint for_fold {A B : Type} (l : list A) (acc : B) (body : B -> A -> M B) : M B :=
  match l with
  | [] => ret acc
  | x :: r => acc' <- body acc x ;; for_fold r acc' body
  end.

(** ** The stages of [main.py] *)

Definition config_names : list str := [lit "config.json"; lit "config.template.json"].

Definition excel_extensions : list str :=
  [lit ".xlsx"; lit ".xls"; lit ".xlsm"; lit ".xlsb"; lit ".odf"; lit ".ods"; lit ".odt"].

(** How one iteration of a loop body ends: by reaching its end, or by
    [continue]. *)
Inductive flow := Next | Continue.

Section Stages.
Context {U : Unicode}.
Variable E : env.

(** The test [find_data_files] makes on the name of an entry. *)
Definition is_config_file (f : str) : bool := str_in (str_lower f) config_names.

Definition has_data_suffix (f : str) : bool :=
  endswith f (lit ".csv") || endswith f (lit ".json") || existsb (endswith f) excel_extensions.

(** find csv and excel files in current working directory *)
Definition find_data_files : M (list str) :=
  call E (Listdir (cwd E)) ;;
  let all_files := dir_entries E (cwd E) in
  log DEBUG "All files in directory: %s" [AList all_files] ;;
  data_files <- for_fold all_files [] (fun data_files f =>
    (* skip config files *)
    if is_config_file f then
      log DEBUG "Skipping config file: %s" [AStr f] ;;
      ret data_files
    (* check file extension *)
    else if has_data_suffix f then
      log DEBUG "Found data file: %s" [AStr f] ;;
      ret (data_files ++ [f])
    else ret data_files) ;;
  log INFO "Found %d data files: %s" [AInt (List.length data_files); AList data_files] ;;
  ret data_files.

(** configure a new directory for datasets *)
Definition configure_data_dir (data_files : list str) (data_directory : str) : M unit :=
  try_except_class OSError
    (call E (Makedirs data_directory) ;;
     log INFO "Directory %s created" [AStr data_directory])
    (fun e => log ERROR "Error creating directory: %s" [AStr (exn_msg e)]) ;;
  for_each data_files (fun f =>
    try_except
      (let file_path := path_join (cwd E) f in
       let destination := path_join data_directory f in
       call E (Rename file_path destination) ;;
       log INFO "Moved '%s' to %s" [AStr f; AStr data_directory])
      (fun e => log ERROR "Error moving file %s: %s" [AStr f; AStr (exn_msg e)])).

(** The body of the loop of [create_df_dict] for the file [f]; [df] and
    [error_count] are the local variables of the function.  No call raises
    after [df] was assigned to, so a handler finds [df] as the [try] found it. *)
Definition load_file (data_path : str) (locals : dict DataFrame * nat) (f : str)
  : M (dict DataFrame * nat) :=
  let '(df, error_count) := locals in
  '(df, error_count, how) <-
    try_except
      (let file_path := path_join data_path f in
       let file_extension := str_lower (snd (splitext f)) in
       if str_eqb file_extension (lit ".csv") then
         call E (ReadCsv file_path) ;;
         let df := dict_set f (csv_table E file_path) df in
         log INFO "Successfully loaded CSV: %s" [AStr f] ;;
         ret (df, error_count, Next)
       else if str_in file_extension excel_extensions then
         try_except
           ((* read all sheets in the Excel file *)
            call E (ReadExcel file_path) ;;
            let excel_data := excel_sheets E file_path in
            if Nat.eqb (List.length excel_data) 1 then
              (* if there's only one sheet, use the original filename *)
              let df := match dict_values excel_data with
                        | sheet :: _ => dict_set f sheet df
                        | [] => df
                        end in
              log INFO "Successfully loaded Excel file with single sheet: %s" [AStr f] ;;
              ret (df, error_count, Next)
            else
              (* if there are multiple sheets, create separate dataframes for each *)
              let base_name := fst (splitext f) in
              df <- for_fold excel_data df (fun df '(sheet_name, sheet_df) =>
                (* create a clean sheet name *)
                let clean_sheet_name := clean_text sheet_name in
                (* create a new key for this sheet *)
                let new_key := base_name ++ lit "_" ++ clean_sheet_name ++ lit ".xlsx" in
                let df := dict_set new_key sheet_df df in
                log INFO "Successfully loaded sheet '%s' from Excel file: %s"
                    [AStr sheet_name; AStr f] ;;
                ret df) ;;
              ret (df, error_count, Next))
           (fun e =>
              log ERROR "Error loading Excel file %s: %s" [AStr f; AStr (exn_msg e)] ;;
              ret (df, error_count + 1, Continue))
       else if str_eqb file_extension (lit ".json") then
         try_except
           (with_ (call E (OpenRead file_path)) (emit (CloseFile file_path)) (fun _ =>
              call E (JsonLoad file_path) ;;
              call E (JsonNormalize file_path) ;;
              let df := dict_set f (json_table E file_path) df in
              log INFO "Successfully loaded JSON file: %s" [AStr f] ;;
              ret (df, error_count, Next)))
           (fun e =>
              (if is_class JSONDecodeError e
               then log ERROR "Invalid JSON format in file %s: %s" [AStr f; AStr (exn_msg e)]
               else log ERROR "Error processing JSON file %s: %s" [AStr f; AStr (exn_msg e)]) ;;
              ret (df, error_count + 1, Continue))
       else
         log WARNING "Unsupported file type: %s" [AStr f] ;;
         ret (df, error_count + 1, Continue))
      (fun e =>
         log ERROR "Error loading %s: %s" [AStr f; AStr (exn_msg e)] ;;
         ret (df, error_count + 1, Next)) ;;
  match how with
  | Continue => ret (df, error_count)
  | Next => log DEBUG "Finished processing: %s" [AStr f] ;; ret (df, error_count)
  end.

(** The local variables [df] and [error_count] when the loop is over. *)
Definition create_df_dict_loop (data_files : list str) (data_path : str)
  : M (dict DataFrame * nat) :=
  for_fold data_files ([], 0) (load_file data_path).

(** read the data files to a dictionary of dataframes *)
Definition create_df_dict (data_files : list str) (data_directory : str)
  : M (dict DataFrame) :=
  (* get the path to datasets *)
  let data_path := path_join (cwd E) data_directory in
  log INFO "Data path is: %s" [AStr data_path] ;;
  (* iterate over files and create a dictionary of dataframes *)
  '(df, error_count) <- create_df_dict_loop data_files data_path ;;
  log INFO "Data loading completed with %d errors" [AInt error_count] ;;
  ret df.

(** [str(KeyError(k))] for a key without quotes or escapes. *)
Definition key_error (k : str) : exn :=
  {| exn_cls := KeyError; exn_msg := lit "'" ++ k ++ lit "'" |}.

(** clean each file name and update dataframe keys accordingly; the
    dictionary is changed in place, so it is returned with the list. *)
Definition clean_file_names (data_files : list str) (dataframe : dict DataFrame)
  : M (list str * dict DataFrame) :=
  '(cleaned_files, dataframe) <-
    for_fold data_files ([], dataframe) (fun '(cleaned_files, dataframe) f =>
      let clean_name := clean_text f in
      let cleaned_files := cleaned_files ++ [clean_name] in
      match dict_pop f dataframe with
      | Some (popped, dataframe) => ret (cleaned_files, dict_set clean_name popped dataframe)
      | None => raise (key_error f)
      end) ;;
  let data_files := cleaned_files in
  log INFO "Cleaned file names: %s" [AList data_files] ;;
  ret (data_files, dataframe).

(** What ["." in text], the first test of [clean_text], raises when [text]
    is an int, a float, a Timestamp or another object that is no str and no
    container (the message is the one of CPython 3.11). *)
Definition not_iterable (type_name : str) : exn :=
  {| exn_cls := TypeError;
     exn_msg := lit "argument of type '" ++ type_name ++ lit "' is not iterable" |}.

(** [clean_text(col)] for a column label. *)
Definition clean_text_of (col : label) : M str :=
  match col with
  | LStr text => ret (clean_text text)
  | LOther type_name _ => raise (not_iterable type_name)
  end.

(** The schema of one table: its headers paired with the SQL types. *)
Definition table_schema_of (df : DataFrame) : str :=
  (* get sql type for each column *)
  let col_types := series_replace DTYPE_MAPPING (dtypes df) in
  (* pair column names with their sql types *)
  let col_pairs := combine (map label_str (columns df)) col_types in
  (* create the table schema *)
  join (lit ", ") (map (fun '(col, type) => col ++ lit " " ++ type) col_pairs).

(** clean column headers in each dataframe and define table schemas; the
    DataFrames are changed in place, so the dictionary is returned too.  No
    handler stands between [clean_text] and the caller. *)
Definition process_dataframes (dataframes_dict : dict DataFrame)
  : M (dict str * dict DataFrame) :=
  for_fold dataframes_dict ([], dataframes_dict) (fun '(schemas, dataframes_dict) '(file_name, df) =>
    (* clean column headers *)
    cols <- for_fold (columns df) [] (fun cols col =>
              clean_col <- clean_text_of col ;;
              ret (cols ++ [clean_col])) ;;
    let df := set_columns df (map LStr cols) in
    let dataframes_dict := dict_set file_name df dataframes_dict in
    let schemas := dict_set file_name (table_schema_of df) schemas in
    log INFO "Schema created for table %s: %s"
        [AStr file_name; AStr (table_schema_of df)] ;;
    ret (schemas, dataframes_dict)).

(** save dataframe to csv; the loop variable takes the name of the first
    parameter. *)
Definition save_df_to_csv {A : Type} (clean_file_name : A) (dataframe_dict : dict DataFrame)
  : M unit :=
  for_each dataframe_dict (fun '(clean_file_name, df) =>
    call E (ToCsv (clean_file_name ++ lit ".csv") (columns df) df) ;;
    log INFO "%s saved successfully" [AStr clean_file_name]).

(** get database credentials *)
Definition load_config : M (dict str) :=
  config <- with_ (call E (OpenRead (lit "config.json"))) (emit (CloseFile (lit "config.json")))
              (fun _ =>
                 call E (JsonLoad (lit "config.json")) ;;
                 ret (json_config E (lit "config.json"))) ;;
  match dict_get (lit "database") config with
  | Some database => ret database
  | None => raise (key_error (lit "database"))
  end.

(** The COPY statement of [import_to_postgres], up to white space. *)
Definition copy_query (file_name : str) : str :=
  lit "COPY " ++ file_name ++
  lit " FROM STDIN WITH CSV HEADER DELIMITER AS ',' ENCODING 'UTF8'".

(** What the loop of [import_to_postgres] does for one table. *)
Definition import_table (item : str * str) : M unit :=
  let '(file_name, schema) := item in
  (* use proper sql parameter substitution where possible *)
  call E (Execute (lit "CREATE TABLE IF NOT EXISTS %s (%s)") [file_name; schema]) ;;
  with_ (call E (OpenRead (file_name ++ lit ".csv")))
        (emit (CloseFile (file_name ++ lit ".csv")))
        (fun _ => call E (CopyExpert (copy_query file_name) (file_name ++ lit ".csv"))).

(** The [try] statement of [import_to_postgres]. *)
Definition import_transaction (table_schema : dict str) : M unit :=
  try_except
    ((* wrap all operations in a single transaction *)
     for_each table_schema import_table ;;
     call E Commit ;;
     log INFO "All tables created and data imported successfully" [])
    (fun e =>
       call E Rollback ;;
       log ERROR "Failed to import data: %s" [AStr (exn_msg e)] ;;
       raise e).

(** connect to db, create tables, insert values *)
Definition import_to_postgres (table_schema : dict str) (conn_dict : dict str) : M unit :=
  with_ (call E (Connect conn_dict)) (emit CloseConn) (fun _ =>
    with_ (call E OpenCursor) (emit CloseCursor) (fun _ =>
      import_transaction table_schema)).

Definition move_processed_files (processed_files : list str) : M unit :=
  let processed_dir := lit "processed_data" in
  try_except
    (call E (Makedirs processed_dir) ;;
     log INFO "Created processed datasets directory: %s" [AStr processed_dir] ;;
     for_each processed_files (fun file_name =>
       let csv_file := file_name ++ lit ".csv" in
       let source := path_join (cwd E) csv_file in
       let destination := path_join processed_dir csv_file in
       call E (Rename source destination) ;;
       log INFO "Moved processed file '%s' to %s" [AStr csv_file; AStr processed_dir]))
    (fun e =>
       log ERROR "Error moving processed files: %s" [AStr (exn_msg e)] ;;
       raise e).

End Stages.

(** ** The orchestrator

    [main] is written over the stages it calls, each a transformer of the
    state [W] of the world that may raise; this is how the integration tests
    run it, with every stage replaced. *)

Definition SM (W A : Type) : Type := W -> result A * W.

Definition sret {W A : Type} (a : A) : SM W A := fun w => (Ok a, w).

Definition sbind {W A B : Type} (m : SM W A) (k : A -> SM W B) : SM W B :=
  fun w =>
    match m w with
    | (Ok a, w') => k a w'
    | (Raise e, w') => (Raise e, w')
    end.

Definition sraise {W A : Type} (e : exn) : SM W A := fun w => (Raise e, w).

Declare Scope state_scope.
Delimit Scope state_scope with state.
Notation "x <- m ;; k" := (sbind m (fun x => k))
  (at level 61, m at next level, right associativity) : state_scope.
Notation "' p <- m ;; k" := (sbind m (fun p => k))
  (at level 61, p pattern, m at next level, right associativity) : state_scope.
Notation "m ;; k" := (sbind m (fun _ => k))
  (at level 61, right associativity) : state_scope.

Record stages (W : Type) := {
  run_find_data_files : SM W (list str);
  run_configure_data_dir : list str -> str -> SM W unit;
  run_create_df_dict : list str -> str -> SM W (dict DataFrame);
  run_clean_file_names : list str -> dict DataFrame -> SM W (list str * dict DataFrame);
  run_process_dataframes : dict DataFrame -> SM W (dict str * dict DataFrame);
  run_save_df_to_csv : list str -> dict DataFrame -> SM W unit;
  run_load_config : SM W (dict str);
  run_import_to_postgres : dict str -> dict str -> SM W unit;
  run_move_processed_files : list str -> SM W unit;
  run_log : level -> str -> list log_arg -> W -> W
}.

(** How a call of [main] ends: it returns, or [sys.exit(code)] raises
    [SystemExit]. *)
Inductive outcome :=
| Returned
| SystemExit (code : nat).

(** The exit status of the process that ran [main()]. *)
Definition exit_status (o : outcome) : nat :=
  match o with
  | Returned => 0
  | SystemExit code => code
  end.

Definition value_error (msg : string) : exn :=
  {| exn_cls := ValueError; exn_msg := lit msg |}.

Section Orchestrator.
Variable W : Type.
Variable S : stages W.

Definition slog (lvl : level) (fmt : string) (args : list log_arg) : SM W unit :=
  fun w => (Ok tt, run_log S lvl (lit fmt) args w).

(** The [try] block of [main]. *)
Definition main_body : SM W unit :=
  (let data_dir := lit "unprocessed_data" in
   data_files <- run_find_data_files S ;;
   (match data_files with
    | [] => sraise (value_error "No data files found to process")
    | _ :: _ => sret tt
    end) ;;
   run_configure_data_dir S data_files data_dir ;;
   df_dict <- run_create_df_dict S data_files data_dir ;;
   (match df_dict with
    | [] => sraise (value_error "Failed to process any data files")
    | _ :: _ => sret tt
    end) ;;
   ' (datasets, df_dict) <- run_clean_file_names S (dict_keys df_dict) df_dict ;;
   ' (schemas, df_dict) <- run_process_dataframes S df_dict ;;
   run_save_df_to_csv S datasets df_dict ;;
   (* load credentials from config file *)
   db_config <- run_load_config S ;;
   run_import_to_postgres S schemas db_config ;;
   (* move processed csv files to processed_data directory *)
   run_move_processed_files S datasets ;;
   slog INFO "All datasets have been imported successfully" [])%state.

Definition main (w : W) : outcome * W :=
  let w := run_log S INFO (lit "Starting data import process") [] w in
  match main_body w with
  | (Ok _, w') => (Returned, w')
  | (Raise e, w') =>
      (SystemExit 1, run_log S ERROR (lit "Script failed: %s") [AStr (exn_msg e)] w')
  end.

End Orchestrator.

(** The stages of [main.py] itself, over the trace of the run so far. *)
Definition on_trace {A : Type} (m : M A) : SM (list event) A :=
  fun t => let (r, t') := m in (r, t ++ t').

Definition pgdatahub {U : Unicode} (E : env) : stages (list event) := {|
  run_find_data_files := on_trace (find_data_files E);
  run_configure_data_dir := fun fs d => on_trace (configure_data_dir E fs d);
  run_create_df_dict := fun fs d => on_trace (create_df_dict E fs d);
  run_clean_file_names := fun fs d => on_trace (clean_file_names fs d);
  run_process_dataframes := fun d => on_trace (process_dataframes d);
  run_save_df_to_csv := fun fs d => on_trace (save_df_to_csv E fs d);
  run_load_config := on_trace (load_config E);
  run_import_to_postgres := fun s c => on_trace (import_to_postgres E s c);
  run_move_processed_files := fun fs => on_trace (move_processed_files E fs);
  run_log := fun lvl fmt args t => t ++ [Done (Log lvl fmt args)]
|}.

(** ** Reading a trace *)

Definition is_commit (ev : event) : bool :=
  match ev with
  | Done Commit | Failed Commit _ => true
  | _ => false
  end.

Definition is_rollback (ev : event) : bool :=
  match ev with
  | Done Rollback | Failed Rollback _ => true
  | _ => false
  end.

(** How many times [conn.commit()] and [conn.rollback()] were called. *)
Definition commits (t : list event) : nat := List.length (filter is_commit t).
Definition rollbacks (t : list event) : nat := List.length (filter is_rollback t).

(** The database as the trace leaves it: the tables a statement of the open
    transaction has touched, and the tables of committed transactions.  A
    commit that returns makes the pending tables durable; a rollback, a
    commit that raises and the end of the connection drop them. *)
Record db_state := { pending : list str; durable : list str }.

Definition table_of (args : list str) : list str :=
  match args with
  | t :: _ => [t]
  | [] => []
  end.

Definition db_step (s : db_state) (ev : event) : db_state :=
  match ev with
  | Done (Execute _ args) => {| pending := pending s ++ table_of args; durable := durable s |}
  | Done Commit => {| pending := []; durable := durable s ++ pending s |}
  | Failed Commit _ | Done Rollback | Failed Rollback _ | Done CloseConn =>
      {| pending := []; durable := durable s |}
  | _ => s
  end.

Definition db_after (t : list event) : db_state :=
  fold_left db_step t {| pending := []; durable := [] |}.

(** ** Descriptions used by the statements below *)

Unset Implicit Arguments.

(** The run that [re_sub_plus] skips, as a function of its own. *)
Fixpoint skip_run (cls : codepoint -> bool) (s : str) : str :=
  match s with
  | [] => []
  | d :: t => if cls d then skip_run cls t else s
  end.

(** What steps (d) to (f) of the specification make of a lower-cased text. *)
Definition tidy (s : str) : str :=
  drop_trailing UNDERSCORE
    (drop_leading UNDERSCORE (collapse_underscores (unsafe_to_underscore s))).

(** The text of [test_clean_text_turkish_chars]: dotted capital I, s cedilla,
    c cedilla, i, g breve, u diaeresis, capital S cedilla, o diaeresis,
    capital C cedilla, dotless i. *)
Definition turk_sample : str := [304; 351; 231; 105; 287; 252; 350; 246; 199; 305]%N.

(** [d.update(entries)] *)
Definition dict_update {V : Type} (d : dict V) (entries : list (str * V)) : dict V :=
  fold_left (fun d kv => dict_set (fst kv) (snd kv) d) entries d.

(** The call [o] returns in the environment [E]. *)
Definition returns (E : env) (o : op) : bool :=
  match raises E o with
  | None => true
  | Some _ => false
  end.

Section Loaded.
Context {U : Unicode}.
Variable E : env.

(** The entry under which [create_df_dict] files one sheet of a workbook
    with several sheets. *)
Definition sheet_entry (base : str) (kv : str * DataFrame) : str * DataFrame :=
  (base ++ lit "_" ++ clean_text (fst kv) ++ lit ".xlsx", snd kv).

(** What the file [f] contributes: the tables read from it under their keys,
    or nothing when it cannot be loaded. *)
Definition tables_of_file (data_path f : str) : option (list (str * DataFrame)) :=
  let file_path := path_join data_path f in
  let file_extension := str_lower (snd (splitext f)) in
  if str_eqb file_extension (lit ".csv") then
    if returns E (ReadCsv file_path) then Some [(f, csv_table E file_path)] else None
  else if str_in file_extension excel_extensions then
    if returns E (ReadExcel file_path) then
      match excel_sheets E file_path with
      | [(_, sheet)] => Some [(f, sheet)]
      | sheets => Some (map (sheet_entry (fst (splitext f))) sheets)
      end
    else None
  else if str_eqb file_extension (lit ".json") then
    if returns E (OpenRead file_path) && returns E (JsonLoad file_path)
       && returns E (JsonNormalize file_path)
    then Some [(f, json_table E file_path)]
    else None
  else None.

Definition cannot_load (data_path f : str) : bool :=
  match tables_of_file data_path f with
  | Some _ => false
  | None => true
  end.

(** The mapping and the error count after one more file: a file that loads
    adds its tables, a file that does not adds one to the count. *)
Definition after_file (data_path : str) (locals : dict DataFrame * nat) (f : str)
  : dict DataFrame * nat :=
  match tables_of_file data_path f with
  | Some tables => (dict_update (fst locals) tables, snd locals)
  | None => (fst locals, snd locals + 1)
  end.

Definition after_files (data_path : str) (data_files : list str) : dict DataFrame * nat :=
  fold_left (after_file data_path) data_files ([], 0).

(** The headers of a frame, cleaned, and the frame once
    [process_dataframes] has cleaned them. *)
Definition clean_headers (df : DataFrame) : list str :=
  map (fun col => clean_text (label_str col)) (columns df).

Definition cleaned (df : DataFrame) : DataFrame :=
  set_columns df (map LStr (clean_headers df)).

(** The entries that [find_data_files] keeps. *)
Definition is_data_file (f : str) : bool := negb (is_config_file f) && has_data_suffix f.

(** The type of the first label that is no str, among the labels of a frame
    and among those of the frames of a dictionary, in their order. *)
Fixpoint non_text_label (cols : list label) : option str :=
  match cols with
  | [] => None
  | LStr _ :: rest => non_text_label rest
  | LOther type_name _ :: _ => Some type_name
  end.

Fixpoint first_non_text (d : dict DataFrame) : option str :=
  match d with
  | [] => None
  | (_, df) :: rest =>
      match non_text_label (columns df) with
      | Some type_name => Some type_name
      | None => first_non_text rest
      end
  end.

End Loaded.

(** The first exception that the loop of [import_to_postgres] meets. *)
Definition table_failure (E : env) (item : str * str) : option exn :=
  let '(file_name, schema) := item in
  match raises E (Execute (lit "CREATE TABLE IF NOT EXISTS %s (%s)") [file_name; schema]) with
  | Some e => Some e
  | None =>
      match raises E (OpenRead (file_name ++ lit ".csv")) with
      | Some e => Some e
      | None => raises E (CopyExpert (copy_query file_name) (file_name ++ lit ".csv"))
      end
  end.

Fixpoint first_failure (E : env) (table_schema : dict str) : option exn :=
  match table_schema with
  | [] => None
  | item :: rest =>
      match table_failure E item with
      | Some e => Some e
      | None => first_failure E rest
      end
  end.

(** The events after which no transaction is open. *)
Definition ends_transaction (ev : event) : bool :=
  match ev with
  | Done Commit | Failed Commit _ | Done Rollback | Failed Rollback _ | Done CloseConn => true
  | _ => false
  end.

Definition executed (ev : event) : list str :=
  match ev with
  | Done (Execute _ args) => table_of args
  | _ => []
  end.

(** The CSV files a trace has written, with header and contents. *)
Definition csv_written (ev : event) : list (str * list label * DataFrame) :=
  match ev with
  | Done (ToCsv path header df) => [(path, header, df)]
  | _ => []
  end.

Definition csv_files (t : list event) : list (str * list label * DataFrame) :=
  flat_map csv_written t.

(** One file per table, in the order of the dictionary, up to the first
    [to_csv] that raises. *)
Fixpoint saved_tables (E : env) (d : dict DataFrame) : list (str * list label * DataFrame) :=
  match d with
  | [] => []
  | (k, df) :: rest =>
      if returns E (ToCsv (k ++ lit ".csv") (columns df) df)
      then (k ++ lit ".csv", columns df, df) :: saved_tables E rest
      else []
  end.

(** *** Sample environments and tables *)

Definition empty_frame : DataFrame := {| columns := []; dtypes := []; rows := [] |}.

(** A frame with one column of complex numbers, as
    [pd.DataFrame({"z": [1+2j]})]. *)
Definition complex_frame : DataFrame :=
  {| columns := [LStr (lit "z")]; dtypes := [lit "complex128"]; rows := [[lit "(1+2j)"]] |}.

(** An environment in which no call raises. *)
Definition quiet_env (entries : list str) : env := {|
  cwd := lit "/work";
  dir_entries := fun _ => entries;
  csv_table := fun _ => empty_frame;
  excel_sheets := fun _ => [];
  json_table := fun _ => empty_frame;
  json_config := fun _ => [(lit "database", [(lit "host", lit "localhost")])];
  raises := fun _ => None
|}.

Definition with_raises (E : env) (r : op -> option exn) : env := {|
  cwd := cwd E;
  dir_entries := dir_entries E;
  csv_table := csv_table E;
  excel_sheets := excel_sheets E;
  json_table := json_table E;
  json_config := json_config E;
  raises := r
|}.

Definition db_error : exn := {| exn_cls := DatabaseError; exn_msg := lit "connection lost" |}.

Definition parser_error : exn := {| exn_cls := ParserError; exn_msg := lit "no columns to parse" |}.

(** Only [conn.commit()] raises. *)
Definition commit_fails : env :=
  with_raises (quiet_env [])
    (fun o => match o with Commit => Some db_error | _ => None end).

(** [conn.commit()] raises, and [conn.rollback()] raises after it. *)
Definition rollback_error : exn :=
  {| exn_cls := DatabaseError; exn_msg := lit "connection already closed" |}.

Definition commit_and_rollback_fail : env :=
  with_raises (quiet_env [])
    (fun o => match o with
              | Commit => Some db_error
              | Rollback => Some rollback_error
              | _ => None
              end).

(** Only the COPY into the table [orders] raises. *)
Definition copy_fails : env :=
  with_raises (quiet_env [])
    (fun o => match o with
              | CopyExpert _ path => if str_eqb path (lit "orders.csv") then Some db_error else None
              | _ => None
              end).

(** The directory holds one CSV file, which [pd.read_csv] cannot parse. *)
Definition unreadable_csv : env :=
  with_raises (quiet_env [lit "broken.csv"])
    (fun o => match o with ReadCsv _ => Some parser_error | _ => None end).

Definition two_tables : dict str :=
  [(lit "users", lit "id BIGINT"); (lit "orders", lit "id BIGINT, total DOUBLE PRECISION")].

(** *** Moves, files and calls in a trace *)

(** The renames a trace has attempted, and those that returned. *)
Definition rename_attempt (ev : event) : list (str * str) :=
  match ev with
  | Done (Rename src dst) | Failed (Rename src dst) _ => [(src, dst)]
  | _ => []
  end.

Definition rename_done (ev : event) : list (str * str) :=
  match ev with
  | Done (Rename src dst) => [(src, dst)]
  | _ => []
  end.

(** The move [configure_data_dir] attempts for the file [f]. *)
Definition staging_move (E : env) (data_directory f : str) : str * str :=
  (path_join (cwd E) f, path_join data_directory f).

(** The move [move_processed_files] attempts for the table [file_name]. *)
Definition archive_move (E : env) (file_name : str) : str * str :=
  (path_join (cwd E) (file_name ++ lit ".csv"),
   path_join (lit "processed_data") (file_name ++ lit ".csv")).

Definition move_returns (E : env) (m : str * str) : bool :=
  returns E (Rename (fst m) (snd m)).

(** The tables whose move is attempted, the tables moved, and the error
    raised, when [move_processed_files] stops at the first move that
    raises. *)
Fixpoint archive_attempted (E : env) (files : list str) : list str :=
  match files with
  | [] => []
  | f :: rest =>
      if move_returns E (archive_move E f) then f :: archive_attempted E rest else [f]
  end.

Fixpoint archive_moved (E : env) (files : list str) : list str :=
  match files with
  | [] => []
  | f :: rest =>
      if move_returns E (archive_move E f) then f :: archive_moved E rest else []
  end.

Fixpoint archive_failure (E : env) (files : list str) : option exn :=
  match files with
  | [] => None
  | f :: rest =>
      match raises E (Rename (fst (archive_move E f)) (snd (archive_move E f))) with
      | Some e => Some e
      | None => archive_failure E rest
      end
  end.

(** The files a trace has opened for reading, and those it has closed. *)
Definition file_opened (ev : event) : list str :=
  match ev with
  | Done (OpenRead path) => [path]
  | _ => []
  end.

Definition file_closed (ev : event) : list str :=
  match ev with
  | Done (CloseFile path) => [path]
  | _ => []
  end.

(** The path of a written file. *)
Definition csv_path (w : str * list label * DataFrame) : str := fst (fst w).

(** The calls of the archive stage: making "processed_data", and moving a
    file into it. *)
Definition archive_event (ev : event) : bool :=
  match ev with
  | Done (Makedirs path) | Failed (Makedirs path) _ => str_eqb path (lit "processed_data")
  | Done (Rename _ dst) | Failed (Rename _ dst) _ => startswith dst (lit "processed_data/")
  | _ => false
  end.

(** The calls on the connection and its cursor. *)
Definition database_op (o : op) : bool :=
  match o with
  | Connect _ | OpenCursor | Execute _ _ | CopyExpert _ _
  | Commit | Rollback | CloseCursor | CloseConn => true
  | _ => false
  end.

Definition database_event (ev : event) : bool :=
  match ev with
  | Done o | Failed o _ => database_op o
  end.

(** An event of the stages before the database load. *)
Definition early_event (ev : event) : bool :=
  negb (archive_event ev) && negb (database_event ev).

(** Every call that [m] makes satisfies [P]. *)
Definition silent {A : Type} (P : event -> bool) (m : M A) : Prop :=
  forallb P (snd m) = true.

Section Renaming.
Context {U : Unicode}.

(** An entry under its cleaned name. *)
Definition renamed_entry (kv : str * DataFrame) : str * DataFrame :=
  (clean_text (fst kv), snd kv).

(** The loop of [clean_file_names], from the local variables [acc]. *)
Definition rename_loop (data_files : list str) (acc : list str * dict DataFrame)
  : M (list str * dict DataFrame) :=
  for_fold data_files acc (fun '(cleaned_files, dataframe) f =>
    let clean_name := clean_text f in
    let cleaned_files := cleaned_files ++ [clean_name] in
    match dict_pop f dataframe with
    | Some (popped, dataframe) => ret (cleaned_files, dict_set clean_name popped dataframe)
    | None => raise (key_error f)
    end).

End Renaming.

(** *** More sample environments and tables *)

Definition os_error : exn := {| exn_cls := OSError; exn_msg := lit "permission denied" |}.

(** [os.makedirs] and the move of "b.csv" raise OSError. *)
Definition staging_fails : env :=
  with_raises (quiet_env [])
    (fun o => match o with
              | Makedirs _ => Some os_error
              | Rename _ dst => if endswith dst (lit "b.csv") then Some os_error else None
              | _ => None
              end).

(** A sheet whose second header cell holds the number 2024, as
    [pd.read_excel] gives it. *)
Definition numbered_frame : DataFrame :=
  {| columns := [LStr (lit "region"); LOther (lit "int") (lit "2024")];
     dtypes := [lit "object"; lit "float64"];
     rows := [[lit "north"; lit "1.5"]] |}.

(** The directory holds the workbook "report.xlsx" with that one sheet; no
    call raises. *)
Definition numeric_header : env := {|
  cwd := lit "/work";
  dir_entries := fun _ => [lit "report.xlsx"];
  csv_table := fun _ => empty_frame;
  excel_sheets := fun _ => [(lit "Sheet1", numbered_frame)];
  json_table := fun _ => empty_frame;
  json_config := fun _ => [(lit "database", [(lit "host", lit "localhost")])];
  raises := fun _ => None
|}.

(** Two files with the same stem, and two files with different stems. *)
Definition same_stem : dict DataFrame :=
  [(lit "a.csv", empty_frame); (lit "a.json", complex_frame)].

Definition two_files : dict DataFrame :=
  [(lit "Sales 2024.csv", empty_frame); (lit "b.json", complex_frame)].

(** ** The interface is inhabited *)

Lemma basic_lower_ascii s : forallb is_ascii s = true -> basic_lower s = map ascii_lower s.
Proof.
  induction s as [|c r IH]; simpl; intros H; [reflexivity|].
  apply andb_true_iff in H as [Hc Hr]. rewrite (IH Hr).
  unfold basic_lower_cp, ascii_lower.
  destruct (is_upper c) eqn:Hu; [reflexivity|].
  unfold is_ascii in Hc. apply N.ltb_lt in Hc.
  unfold in_range.
  destruct (N.leb 192%N c) eqn:H1; [apply N.leb_le in H1; lia|]. simpl.
  destruct (N.eqb c 304%N) eqn:H2; [apply N.eqb_eq in H2; lia|].
  destruct (N.eqb c 8490%N) eqn:H3; [apply N.eqb_eq in H3; lia|]. reflexivity.
Qed.

Lemma shifted_not_upper c : (90 < c + 32)%N -> negb (is_upper (c + 32)%N) = true.
Proof.
  intros H. unfold is_upper, in_range. apply negb_true_iff, andb_false_iff.
  right. apply N.leb_gt. exact H.
Qed.

Lemma basic_lower_no_upper s : forallb (fun c => negb (is_upper c)) (basic_lower s) = true.
Proof.
  induction s as [|c r IH]; simpl; [reflexivity|].
  rewrite forallb_app, IH, andb_true_r.
  unfold basic_lower_cp.
  destruct (is_upper c) eqn:Hu.
  - simpl. rewrite andb_true_r. apply shifted_not_upper.
    unfold is_upper, in_range in Hu. apply andb_true_iff in Hu as [A _].
    apply N.leb_le in A. lia.
  - destruct (in_range 192%N 222%N c && negb (N.eqb c 215%N)) eqn:H1.
    + simpl. rewrite andb_true_r. apply shifted_not_upper.
      apply andb_true_iff in H1 as [H1 _]. unfold in_range in H1.
      apply andb_true_iff in H1 as [A _]. apply N.leb_le in A. lia.
    + destruct (N.eqb c 304%N) eqn:H2; [reflexivity|].
      destruct (N.eqb c 8490%N) eqn:H3; [reflexivity|].
      simpl. rewrite Hu. reflexivity.
Qed.

Lemma basic_isdigit_ascii c : is_ascii c = true -> basic_isdigit c = is_digit c.
Proof.
  unfold is_ascii, basic_isdigit, in_range. intros H. apply N.ltb_lt in H.
  destruct (N.eqb c 178%N) eqn:H1; [apply N.eqb_eq in H1; lia|].
  destruct (N.eqb c 179%N) eqn:H2; [apply N.eqb_eq in H2; lia|].
  destruct (N.eqb c 185%N) eqn:H3; [apply N.eqb_eq in H3; lia|].
  destruct (N.leb 1632%N c) eqn:H4; [apply N.leb_le in H4; lia|].
  simpl. rewrite !orb_false_r. reflexivity.
Qed.

Definition basic_unicode : Unicode := {|
  str_lower := basic_lower;
  chr_isdigit := basic_isdigit;
  str_lower_ascii := basic_lower_ascii;
  str_lower_no_upper := basic_lower_no_upper;
  chr_isdigit_ascii := basic_isdigit_ascii
|}.

(** ** Strings *)

Lemma str_eqb_refl a : str_eqb a a = true.
Proof. induction a as [|x a IH]; simpl; [reflexivity|]. rewrite N.eqb_refl. exact IH. Qed.

Lemma str_eqb_eq a b : str_eqb a b = true <-> a = b.
Proof.
  split.
  - revert b. induction a as [|x a IH]; destruct b as [|y b]; simpl; try discriminate; auto.
    intros H. apply andb_true_iff in H as [H1 H2]. apply N.eqb_eq in H1. subst.
    f_equal. apply IH. exact H2.
  - intros ->. apply str_eqb_refl.
Qed.

(** *** The steps of [clean_text], one by one *)

Lemma startswith_dot s : startswith s (lit ".") = starts_with_char DOT s.
Proof.
  destruct s as [|c r]; [reflexivity|].
  change (startswith (c :: r) (lit ".")) with (N.eqb c DOT && startswith r []).
  destruct r; apply andb_true_r.
Qed.

Lemma contains_dot s : contains s (lit ".") = has_char DOT s.
Proof.
  induction s as [|c r IH]; [reflexivity|].
  change (contains (c :: r) (lit "."))
    with (startswith (c :: r) (lit ".") || contains r (lit ".")).
  change (has_char DOT (c :: r)) with (N.eqb DOT c || has_char DOT r).
  rewrite IH, startswith_dot. unfold starts_with_char.
  rewrite (N.eqb_sym c DOT). reflexivity.
Qed.

Lemma split_head sep s : hd [] (split sep s) = before_first sep s.
Proof.
  induction s as [|c r IH]; [reflexivity|]. simpl.
  destruct (N.eqb c sep); [reflexivity|].
  destruct (split sep r) as [|p ps] eqn:Hs; simpl in *; rewrite <- IH; reflexivity.
Qed.

Lemma split_not_nil sep s : split sep s <> [].
Proof.
  destruct s as [|c r]; simpl; [discriminate|].
  destruct (N.eqb c sep); [discriminate|]. destruct (split sep r); discriminate.
Qed.

Lemma re_sub_class_single cls u s :
  re_sub_class cls [u] s = map (fun c => if cls c then u else c) s.
Proof.
  unfold re_sub_class. induction s as [|c r IH]; [reflexivity|].
  cbn [flat_map map]. rewrite IH. destruct (cls c); reflexivity.
Qed.

Lemma replace_dots s : replace DOT (lit "_") s = dots_to_underscores s.
Proof.
  change (replace DOT (lit "_") s) with (re_sub_class (fun c => N.eqb c DOT) [UNDERSCORE] s).
  apply re_sub_class_single.
Qed.

Lemma translate_cp_turkish c : translate_cp TR_MAPPING c = turkish_to_ascii c.
Proof.
  unfold translate_cp, TR_MAPPING, maketrans. simpl.
  repeat match goal with
         | |- context [N.eqb ?k c] =>
             destruct (N.eqb_spec k c) as [<-|?]; [reflexivity|]
         end.
  destruct c as [|p]; [reflexivity|].
  do 9 (destruct p as [p|p|]; try reflexivity; try congruence).
Qed.

Lemma translate_turkish s : translate TR_MAPPING s = map turkish_to_ascii s.
Proof. apply map_ext. exact translate_cp_turkish. Qed.

Lemma special_is_unsafe c : is_upper c = false -> special_char c = negb (safe_char c).
Proof.
  intros H. unfold special_char, safe_char. rewrite H, orb_false_r. reflexivity.
Qed.

Lemma re_sub_special s :
  forallb (fun c => negb (is_upper c)) s = true ->
  re_sub_class special_char (lit "_") s = unsafe_to_underscore s.
Proof.
  intros H. change (lit "_") with [UNDERSCORE]. rewrite re_sub_class_single.
  apply map_ext_in. intros c Hc.
  rewrite forallb_forall in H. specialize (H c Hc). apply negb_true_iff in H.
  rewrite (special_is_unsafe c H). destruct (safe_char c); reflexivity.
Qed.

Lemma re_sub_plus_cons cls repl c r :
  re_sub_plus cls repl (c :: r) =
  if cls c then repl ++ re_sub_plus cls repl (skip_run cls r)
  else c :: re_sub_plus cls repl r.
Proof.
  simpl. destruct (cls c); [|reflexivity]. f_equal.
  induction r as [|d t IH]; [reflexivity|]. simpl.
  destruct (cls d) eqn:Hd; [exact IH | simpl; rewrite Hd; reflexivity].
Qed.

Lemma collapse_run a r :
  is_underscore a = true ->
  collapse_underscores (a :: r) = a :: collapse_underscores (skip_run is_underscore r).
Proof.
  intros Ha. revert a Ha. induction r as [|b t IH]; intros a Ha; [reflexivity|].
  change (collapse_underscores (a :: b :: t))
    with (if is_underscore a && is_underscore b then collapse_underscores (b :: t)
          else a :: collapse_underscores (b :: t)).
  rewrite Ha. simpl (true && _). simpl skip_run.
  destruct (is_underscore b) eqn:Hb; [|reflexivity].
  rewrite (IH b Hb). f_equal.
  apply N.eqb_eq in Ha, Hb. congruence.
Qed.

Lemma collapse_other a r :
  is_underscore a = false ->
  collapse_underscores (a :: r) = a :: collapse_underscores r.
Proof. intros Ha. destruct r as [|b t]; [reflexivity|]. simpl. rewrite Ha. reflexivity. Qed.

Lemma skip_run_length cls s : List.length (skip_run cls s) <= List.length s.
Proof.
  induction s as [|c r IH]; simpl; [lia|]. destruct (cls c); simpl; lia.
Qed.

Lemma re_sub_underscores s :
  re_sub_plus is_underscore (lit "_") s = collapse_underscores s.
Proof.
  remember (List.length s) as n eqn:Hn. revert s Hn.
  induction n as [n IH] using lt_wf_ind. intros s Hn.
  destruct s as [|c r]; [reflexivity|].
  rewrite re_sub_plus_cons. destruct (is_underscore c) eqn:Hc.
  - rewrite (collapse_run c r Hc).
    rewrite (IH (List.length (skip_run is_underscore r))) by
      (try reflexivity; subst n; simpl; pose proof (skip_run_length is_underscore r); lia).
    apply N.eqb_eq in Hc. subst c. reflexivity.
  - rewrite (collapse_other c r Hc). f_equal.
    apply (IH (List.length r)); [subst n; simpl; lia | reflexivity].
Qed.

Lemma lstrip_underscore s : lstrip (lit "_") s = drop_leading UNDERSCORE s.
Proof.
  induction s as [|c r IH]; [reflexivity|]. simpl. rewrite orb_false_r, IH.
  reflexivity.
Qed.

Lemma drop_leading_snoc c l x :
  drop_leading c (l ++ [x]) =
  match drop_leading c l with
  | [] => if N.eqb x c then [] else [x]
  | y :: l' => (y :: l') ++ [x]
  end.
Proof.
  induction l as [|a l IH]; [reflexivity|]. simpl.
  destruct (N.eqb a c); [exact IH | reflexivity].
Qed.

Lemma rev_drop_leading c s : rev (drop_leading c (rev s)) = drop_trailing c s.
Proof.
  induction s as [|x r IH]; [reflexivity|]. simpl.
  rewrite drop_leading_snoc, <- IH.
  destruct (drop_leading c (rev r)) as [|y l'] eqn:Hd.
  - simpl. destruct (N.eqb x c); reflexivity.
  - rewrite rev_app_distr. simpl.
    destruct (rev l' ++ [y]) eqn:Hr; [destruct (rev l'); discriminate | reflexivity].
Qed.

Lemma strip_underscore s :
  strip (lit "_") s = drop_trailing UNDERSCORE (drop_leading UNDERSCORE s).
Proof.
  unfold strip, rstrip. rewrite !lstrip_underscore. apply rev_drop_leading.
Qed.

(** *** Character classes *)

Ltac ranges :=
  unfold safe_char, is_lower, is_upper, is_digit, is_underscore, is_ascii,
    in_range, UNDERSCORE, DOT in *;
  repeat match goal with
         | H : _ && _ = true |- _ => apply andb_true_iff in H; destruct H
         | H : _ || _ = true |- _ => apply orb_true_iff in H; destruct H
         | H : N.leb _ _ = true |- _ => apply N.leb_le in H
         | H : N.ltb _ _ = true |- _ => apply N.ltb_lt in H
         | H : N.eqb _ _ = true |- _ => apply N.eqb_eq in H
         end.

Lemma safe_is_ascii c : safe_char c = true -> is_ascii c = true.
Proof. intros H. ranges; apply N.ltb_lt; lia. Qed.

Lemma safe_not_upper c : safe_char c = true -> is_upper c = false.
Proof.
  intros H. ranges; apply andb_false_iff.
  - right. apply N.leb_gt. lia.
  - left. apply N.leb_gt. lia.
  - right. apply N.leb_gt. lia.
Qed.

Lemma digit_is_safe c : is_digit c = true -> safe_char c = true.
Proof. intros H. unfold safe_char. rewrite H, orb_true_r. reflexivity. Qed.

Lemma digit_not_underscore c : is_digit c = true -> is_underscore c = false.
Proof. intros H. ranges. apply N.eqb_neq. lia. Qed.

Lemma safe_not_dot c : safe_char c = true -> N.eqb DOT c = false.
Proof. intros H. apply N.eqb_neq. ranges; lia. Qed.

Lemma ascii_not_turkish c : is_ascii c = true -> turkish_to_ascii c = c.
Proof.
  unfold is_ascii. intros H. apply N.ltb_lt in H.
  destruct c as [|p]; [reflexivity|].
  do 8 (destruct p as [p|p|]; try reflexivity; try (exfalso; lia)).
Qed.

(** *** What the later steps keep *)

Lemma collapse_head a r : exists t, collapse_underscores (a :: r) = a :: t.
Proof.
  destruct (is_underscore a) eqn:Ha.
  - rewrite (collapse_run a r Ha). eauto.
  - rewrite (collapse_other a r Ha). eauto.
Qed.

Lemma skip_run_incl cls s : incl (skip_run cls s) s.
Proof.
  induction s as [|c r IH]; simpl; [apply incl_refl|].
  destruct (cls c); [apply incl_tl; exact IH | apply incl_refl].
Qed.

Lemma collapse_incl s : incl (collapse_underscores s) s.
Proof.
  induction s as [|a r IH]; [apply incl_refl|].
  destruct r as [|b t]; [apply incl_refl|].
  change (collapse_underscores (a :: b :: t))
    with (if is_underscore a && is_underscore b then collapse_underscores (b :: t)
          else a :: collapse_underscores (b :: t)).
  destruct (is_underscore a && is_underscore b).
  - apply incl_tl. exact IH.
  - apply incl_cons; [left; reflexivity | apply incl_tl; exact IH].
Qed.

Lemma drop_leading_incl c s : incl (drop_leading c s) s.
Proof.
  induction s as [|x r IH]; simpl; [apply incl_refl|].
  destruct (N.eqb x c); [apply incl_tl; exact IH | apply incl_refl].
Qed.

Lemma drop_trailing_incl c s : incl (drop_trailing c s) s.
Proof.
  induction s as [|x r IH]; simpl; [apply incl_refl|].
  destruct (drop_trailing c r) as [|y l].
  - destruct (N.eqb x c); [apply incl_nil_l | apply incl_cons; [left; reflexivity | apply incl_nil_l]].
  - apply incl_cons; [left; reflexivity | apply incl_tl; exact IH].
Qed.

Lemma forallb_incl (P : codepoint -> bool) s t :
  incl s t -> forallb P t = true -> forallb P s = true.
Proof.
  intros Hi Ht. apply forallb_forall. intros x Hx.
  rewrite forallb_forall in Ht. apply Ht, Hi, Hx.
Qed.

Lemma unsafe_to_underscore_safe s : forallb safe_char (unsafe_to_underscore s) = true.
Proof.
  induction s as [|c r IH]; [reflexivity|]. simpl. rewrite IH, andb_true_r.
  destruct (safe_char c) eqn:Hc; [exact Hc | reflexivity].
Qed.

Lemma drop_trailing_head c s y l :
  drop_trailing c s = y :: l -> exists rest, s = y :: rest.
Proof.
  destruct s as [|x r]; simpl; [discriminate|].
  destruct (drop_trailing c r) as [|z l'].
  - destruct (N.eqb x c); [discriminate|]. intros H. injection H as <- _. eauto.
  - intros H. injection H as <- _. eauto.
Qed.

Lemma no_double_tail a r : no_double_underscore (a :: r) = true -> no_double_underscore r = true.
Proof.
  destruct r as [|b t]; [reflexivity|].
  change (no_double_underscore (a :: b :: t))
    with (negb (is_underscore a && is_underscore b) && no_double_underscore (b :: t)).
  intros H. apply andb_true_iff in H. apply H.
Qed.

Lemma no_double_collapse s : no_double_underscore (collapse_underscores s) = true.
Proof.
  remember (List.length s) as n eqn:Hn. revert s Hn.
  induction n as [n IH] using lt_wf_ind. intros s Hn.
  destruct s as [|a r]; [reflexivity|].
  destruct (is_underscore a) eqn:Ha.
  - rewrite (collapse_run a r Ha).
    assert (Hrec : no_double_underscore (collapse_underscores (skip_run is_underscore r)) = true).
    { apply (IH (List.length (skip_run is_underscore r))); [|reflexivity].
      subst n. simpl. pose proof (skip_run_length is_underscore r). lia. }
    destruct (skip_run is_underscore r) as [|d t] eqn:Hs; [reflexivity|].
    destruct (collapse_head d t) as [t' Ht]. rewrite Ht in *.
    change (negb (is_underscore a && is_underscore d) && no_double_underscore (d :: t') = true).
    rewrite Hrec, andb_true_r.
    assert (Hd : is_underscore d = false).
    { clear - Hs. induction r as [|x r IH]; simpl in Hs; [discriminate|].
      destruct (is_underscore x) eqn:Hx; [apply IH, Hs|]. injection Hs as -> _. exact Hx. }
    rewrite Hd, andb_false_r. reflexivity.
  - rewrite (collapse_other a r Ha).
    assert (Hrec : no_double_underscore (collapse_underscores r) = true).
    { apply (IH (List.length r)); [subst n; simpl; lia | reflexivity]. }
    destruct (collapse_underscores r) as [|d t]; [reflexivity|].
    change (negb (is_underscore a && is_underscore d) && no_double_underscore (d :: t) = true).
    rewrite Hrec, Ha. reflexivity.
Qed.

Lemma no_double_drop_leading c s :
  no_double_underscore s = true -> no_double_underscore (drop_leading c s) = true.
Proof.
  induction s as [|x r IH]; [reflexivity|]. intros H. simpl.
  destruct (N.eqb x c); [apply IH, (no_double_tail _ _ H) | exact H].
Qed.

Lemma no_double_drop_trailing c s :
  no_double_underscore s = true -> no_double_underscore (drop_trailing c s) = true.
Proof.
  induction s as [|x r IH]; [reflexivity|]. intros H.
  pose proof (IH (no_double_tail _ _ H)) as Hr. simpl.
  destruct (drop_trailing c r) as [|y l] eqn:Hd.
  - destruct (N.eqb x c); reflexivity.
  - destruct (drop_trailing_head _ _ _ _ Hd) as [rest ->].
    change (negb (is_underscore x && is_underscore y) && no_double_underscore (y :: l) = true).
    rewrite Hr, andb_true_r.
    change (negb (is_underscore x && is_underscore y) && no_double_underscore (y :: rest) = true) in H.
    apply andb_true_iff in H. apply H.
Qed.

Lemma drop_leading_start c s : starts_with_char c (drop_leading c s) = false.
Proof.
  induction s as [|x r IH]; [reflexivity|]. simpl.
  destruct (N.eqb x c) eqn:Hx; [exact IH | simpl; exact Hx].
Qed.

Lemma drop_trailing_start c s :
  starts_with_char c s = false -> starts_with_char c (drop_trailing c s) = false.
Proof.
  intros H. destruct (drop_trailing c s) as [|y l] eqn:Hd; [reflexivity|].
  destruct (drop_trailing_head _ _ _ _ Hd) as [rest ->]. exact H.
Qed.

Lemma drop_trailing_end c s : ends_with_char c (drop_trailing c s) = false.
Proof.
  unfold ends_with_char. rewrite <- rev_drop_leading, rev_involutive.
  apply drop_leading_start.
Qed.

Lemma ends_with_char_app c p s : s <> [] -> ends_with_char c (p ++ s) = ends_with_char c s.
Proof.
  intros Hs. unfold ends_with_char. rewrite rev_app_distr.
  destruct (rev s) as [|x l] eqn:Hr; [|reflexivity].
  apply (f_equal (@rev _)) in Hr. rewrite rev_involutive in Hr. contradiction.
Qed.

(** ** The name normaliser, as a whole *)

Section CleanTextFacts.
Context {U : Unicode}.

Lemma tidy_safe s : forallb safe_char (tidy s) = true.
Proof.
  unfold tidy.
  eapply forallb_incl; [apply drop_trailing_incl|].
  eapply forallb_incl; [apply drop_leading_incl|].
  eapply forallb_incl; [apply collapse_incl|].
  apply unsafe_to_underscore_safe.
Qed.

Lemma isdigit_on_safe s :
  forallb safe_char s = true ->
  match s with
  | c :: _ => if chr_isdigit c then lit "col_" ++ s else s
  | [] => s
  end = prefix_digit s.
Proof.
  destruct s as [|c r]; [reflexivity|]. intros H. simpl in H.
  apply andb_true_iff in H as [Hc _].
  rewrite (chr_isdigit_ascii c (safe_is_ascii c Hc)). reflexivity.
Qed.

(** The code and the wording of the specification define one function. *)
Lemma clean_text_eq_spec text : clean_text text = clean_text_spec text.
Proof.
  unfold clean_text, clean_text_spec.
  rewrite contains_dot, startswith_dot, split_head.
  fold (strip_extension text).
  rewrite replace_dots, translate_turkish.
  rewrite (re_sub_special _ (str_lower_no_upper _)).
  rewrite re_sub_underscores, strip_underscore.
  apply isdigit_on_safe. apply tidy_safe.
Qed.

(** On a text that is ASCII once transliterated, [clean_text] is computed
    without the Unicode tables. *)
Lemma clean_text_ascii text :
  forallb is_ascii (map turkish_to_ascii (dots_to_underscores (strip_extension text))) = true ->
  clean_text text =
  prefix_digit
    (tidy (map ascii_lower (map turkish_to_ascii (dots_to_underscores (strip_extension text))))).
Proof.
  intros H. rewrite clean_text_eq_spec. unfold clean_text_spec.
  rewrite (str_lower_ascii _ H). reflexivity.
Qed.

Lemma prefix_digit_valid s :
  forallb safe_char s = true ->
  no_double_underscore s = true ->
  starts_with_char UNDERSCORE s = false ->
  ends_with_char UNDERSCORE s = false ->
  let r := prefix_digit s in
  starts_with_digit r = false /\
  no_double_underscore r = true /\
  starts_with_char UNDERSCORE r = false /\
  ends_with_char UNDERSCORE r = false /\
  forallb safe_char r = true.
Proof.
  intros Hsafe Hnd Hst Hen r. subst r.
  destruct s as [|c t]; [repeat split|].
  unfold prefix_digit. destruct (is_digit c) eqn:Hc.
  - split; [reflexivity|]. split; [|split; [reflexivity|split]].
    + change (lit "col_" ++ c :: t) with (99 :: 111 :: 108 :: 95 :: c :: t)%N.
      change (negb (is_underscore 95%N && is_underscore c)
              && no_double_underscore (c :: t) = true).
      rewrite Hnd, (digit_not_underscore c Hc). reflexivity.
    + rewrite ends_with_char_app by discriminate. exact Hen.
    + rewrite forallb_app, Hsafe. reflexivity.
  - repeat split; try assumption.
Qed.

Lemma safe_no_dot s : forallb safe_char s = true -> has_char DOT s = false.
Proof.
  induction s as [|c r IH]; [reflexivity|]. intros H.
  cbn [forallb] in H. apply andb_true_iff in H as [Hc Hr].
  change (has_char DOT (c :: r)) with (N.eqb DOT c || has_char DOT r).
  rewrite (safe_not_dot c Hc), (IH Hr). reflexivity.
Qed.

Lemma clean_text_valid text :
  let r := clean_text text in
  starts_with_digit r = false /\
  no_double_underscore r = true /\
  starts_with_char UNDERSCORE r = false /\
  ends_with_char UNDERSCORE r = false /\
  forallb safe_char r = true.
Proof.
  rewrite clean_text_eq_spec. unfold clean_text_spec.
  set (s := str_lower _). fold (tidy s).
  apply prefix_digit_valid.
  - apply tidy_safe.
  - unfold tidy. apply no_double_drop_trailing, no_double_drop_leading, no_double_collapse.
  - unfold tidy. apply drop_trailing_start, drop_leading_start.
  - unfold tidy. apply drop_trailing_end.
Qed.

(** A name that is already valid is left as it is. *)
Lemma map_id_on (f : codepoint -> codepoint) (P : codepoint -> bool) s :
  (forall c, P c = true -> f c = c) -> forallb P s = true -> map f s = s.
Proof.
  intros Hf. induction s as [|c r IH]; [reflexivity|]. simpl. intros H.
  apply andb_true_iff in H as [Hc Hr]. rewrite (Hf c Hc), (IH Hr). reflexivity.
Qed.

Lemma collapse_id s : no_double_underscore s = true -> collapse_underscores s = s.
Proof.
  induction s as [|a r IH]; [reflexivity|]. intros H.
  pose proof (IH (no_double_tail _ _ H)) as Hr.
  destruct r as [|b t]; [reflexivity|].
  change (negb (is_underscore a && is_underscore b) && no_double_underscore (b :: t) = true) in H.
  apply andb_true_iff in H as [H _]. apply negb_true_iff in H.
  change (collapse_underscores (a :: b :: t))
    with (if is_underscore a && is_underscore b then collapse_underscores (b :: t)
          else a :: collapse_underscores (b :: t)).
  rewrite H, Hr. reflexivity.
Qed.

Lemma drop_leading_id c s : starts_with_char c s = false -> drop_leading c s = s.
Proof. destruct s as [|x r]; [reflexivity|]. simpl. intros ->. reflexivity. Qed.

Lemma drop_trailing_id c s : ends_with_char c s = false -> drop_trailing c s = s.
Proof.
  unfold ends_with_char. intros H.
  rewrite <- rev_drop_leading, (drop_leading_id _ _ H). apply rev_involutive.
Qed.

Lemma clean_text_fixpoint s :
  starts_with_digit s = false ->
  no_double_underscore s = true ->
  starts_with_char UNDERSCORE s = false ->
  ends_with_char UNDERSCORE s = false ->
  forallb safe_char s = true ->
  clean_text s = s.
Proof.
  intros Hdig Hnd Hst Hen Hsafe.
  assert (Hdot : has_char DOT s = false) by (apply safe_no_dot, Hsafe).
  assert (Ha : strip_extension s = s) by (unfold strip_extension; rewrite Hdot; reflexivity).
  assert (Hb : dots_to_underscores s = s).
  { unfold dots_to_underscores. apply (map_id_on _ safe_char); [|exact Hsafe].
    intros c Hc. rewrite N.eqb_sym, (safe_not_dot c Hc). reflexivity. }
  assert (Hc : map turkish_to_ascii s = s).
  { apply (map_id_on _ safe_char); [|exact Hsafe].
    intros c Hc. apply ascii_not_turkish, safe_is_ascii, Hc. }
  assert (Hasc : forallb is_ascii s = true).
  { apply forallb_forall. intros c Hin. rewrite forallb_forall in Hsafe.
    apply safe_is_ascii, Hsafe, Hin. }
  rewrite clean_text_ascii; rewrite Ha, Hb, Hc; [|exact Hasc].
  assert (Hlow : map ascii_lower s = s).
  { apply (map_id_on _ safe_char); [|exact Hsafe].
    intros c Hc'. unfold ascii_lower. rewrite (safe_not_upper c Hc'). reflexivity. }
  rewrite Hlow. unfold tidy.
  assert (Hd : unsafe_to_underscore s = s).
  { unfold unsafe_to_underscore. apply (map_id_on _ safe_char); [|exact Hsafe].
    intros c Hc'. rewrite Hc'. reflexivity. }
  rewrite Hd, (collapse_id _ Hnd), (drop_leading_id _ _ Hst), (drop_trailing_id _ _ Hen).
  destruct s as [|c r]; [reflexivity|]. simpl in *. rewrite Hdig. reflexivity.
Qed.

End CleanTextFacts.

(** Evaluates [clean_text] on a text that is ASCII once transliterated. *)
Ltac eval_clean_text :=
  repeat (rewrite clean_text_ascii by reflexivity);
  try reflexivity.

(** ** Loops that do not raise *)

Lemma for_fold_returns {A B : Type} (g : B -> A -> B) (body : B -> A -> M B) l :
  (forall acc x, fst (body acc x) = Ok (g acc x)) ->
  forall acc, fst (for_fold l acc body) = Ok (fold_left g l acc).
Proof.
  intros Hb. induction l as [|x r IH]; intros acc; [reflexivity|].
  simpl. unfold bind. specialize (Hb acc x).
  destruct (body acc x) as [[a|e] t]; simpl in Hb; [|discriminate].
  injection Hb as ->. specialize (IH (g acc x)).
  destruct (for_fold r (g acc x) body) as [r' t']. simpl in *. exact IH.
Qed.

Lemma fold_left_on_map {A B C : Type} (f : A -> C -> A) (g : B -> C) l a :
  fold_left f (map g l) a = fold_left (fun a x => f a (g x)) l a.
Proof. revert a. induction l as [|x r IH]; intros a; [reflexivity|]. apply IH. Qed.

Lemma fst_bind_ok {A B : Type} (m : M A) (k : A -> M B) a :
  fst m = Ok a -> fst (bind m k) = fst (k a).
Proof.
  destruct m as [[x|e] t]; simpl; intros H; [|discriminate].
  injection H as ->. destruct (k a). reflexivity.
Qed.

(** ** The tabular loader *)

Section LoaderFacts.
Context {U : Unicode}.
Variable E : env.

Lemma sheets_loop base f (sheets : dict DataFrame) (df : dict DataFrame) :
  fst (for_fold sheets df (fun df '(sheet_name, sheet_df) =>
         bind (log INFO "Successfully loaded sheet '%s' from Excel file: %s"
                 [AStr sheet_name; AStr f])
              (fun _ => ret (dict_set (base ++ lit "_" ++ clean_text sheet_name ++ lit ".xlsx")
                               sheet_df df))))
  = Ok (dict_update df (map (sheet_entry base) sheets)).
Proof.
  unfold dict_update. rewrite fold_left_on_map.
  apply for_fold_returns. intros acc [n s]. reflexivity.
Qed.

Lemma load_file_returns data_path locals f :
  fst (load_file E data_path locals f) = Ok (after_file E data_path locals f).
Proof.
  destruct locals as [df n]. unfold load_file, after_file, tables_of_file, returns.
  set (file_path := path_join data_path f).
  set (ext := str_lower (snd (splitext f))).
  destruct (str_eqb ext (lit ".csv")).
  { unfold call. destruct (raises E (ReadCsv file_path)); reflexivity. }
  destruct (str_in ext excel_extensions).
  { unfold call. destruct (raises E (ReadExcel file_path)); [reflexivity|].
    destruct (excel_sheets E file_path) as [|[n1 s1] [|[n2 s2] rest]] eqn:Hs;
      try reflexivity.
    cbn [List.length Nat.eqb].
    pose proof (sheets_loop (fst (splitext f)) f ((n1, s1) :: (n2, s2) :: rest) df) as H.
    match type of H with fst ?m = _ => destruct m as [[d|e] t] end;
      simpl in H; [|discriminate].
    injection H as ->. reflexivity. }
  destruct (str_eqb ext (lit ".json")).
  { unfold call, with_, bind.
    destruct (raises E (OpenRead file_path)) as [e|];
      [destruct e as [[] msg]; reflexivity|].
    destruct (raises E (JsonLoad file_path)) as [e|];
      [destruct e as [[] msg]; reflexivity|].
    destruct (raises E (JsonNormalize file_path)) as [e|];
      [destruct e as [[] msg]; reflexivity|].
    reflexivity. }
  reflexivity.
Qed.

Lemma create_df_dict_loop_returns data_files data_path :
  fst (create_df_dict_loop E data_files data_path) = Ok (after_files E data_path data_files).
Proof. apply for_fold_returns. intros acc f. apply load_file_returns. Qed.

End LoaderFacts.

Section LoaderClaims.
Context {U : Unicode}.
Variable E : env.

Lemma after_files_count data_path data_files :
  snd (after_files E data_path data_files) =
  List.length (filter (cannot_load E data_path) data_files).
Proof.
  unfold after_files.
  assert (H : forall l acc,
             snd (fold_left (after_file E data_path) l acc) =
             snd acc + List.length (filter (cannot_load E data_path) l)).
  { induction l as [|f r IH]; intros acc; simpl; [lia|].
    rewrite IH. unfold after_file, cannot_load.
    destruct (tables_of_file E data_path f); simpl; lia. }
  apply H.
Qed.

Lemma create_df_dict_returns data_files data_directory :
  let data_path := path_join (cwd E) data_directory in
  fst (create_df_dict E data_files data_directory)
    = Ok (fst (after_files E data_path data_files)) /\
  exists t,
    snd (create_df_dict E data_files data_directory)
    = t ++ [Done (Log INFO (lit "Data loading completed with %d errors")
                    [AInt (snd (after_files E data_path data_files))])].
Proof.
  intros data_path. unfold create_df_dict. fold data_path.
  pose proof (create_df_dict_loop_returns E data_files data_path) as H.
  destruct (create_df_dict_loop E data_files data_path) as [[[df n]|e] t];
    simpl in H; [|discriminate].
  injection H as H. rewrite <- H. unfold bind, log, emit, ret. simpl.
  split; [reflexivity|].
  exists (Done (Log INFO (lit "Data path is: %s") [AStr data_path]) :: t).
  reflexivity.
Qed.

End LoaderClaims.

(** ** The database loader *)

Lemma commits_app a b : commits (a ++ b) = commits a + commits b.
Proof. unfold commits. rewrite filter_app, length_app. reflexivity. Qed.

Lemma rollbacks_app a b : rollbacks (a ++ b) = rollbacks a + rollbacks b.
Proof. unfold rollbacks. rewrite filter_app, length_app. reflexivity. Qed.

Lemma db_after_app a b : db_after (a ++ b) = fold_left db_step b (db_after a).
Proof. unfold db_after. apply fold_left_app. Qed.

Lemma open_transaction t s :
  forallb (fun ev => negb (ends_transaction ev)) t = true ->
  fold_left db_step t s =
  {| pending := pending s ++ flat_map executed t; durable := durable s |}.
Proof.
  revert s. induction t as [|ev t IH]; intros s H.
  - simpl. rewrite app_nil_r. destruct s; reflexivity.
  - simpl in H. apply andb_true_iff in H as [Hev Ht].
    simpl. rewrite (IH _ Ht).
    destruct ev as [o|o e]; destruct o; simpl in *; try discriminate;
      rewrite ?app_nil_r, <- ?app_assoc; reflexivity.
Qed.

Section Transaction.
Variable E : env.

Lemma import_table_cases item :
  exists t,
    import_table E item =
      (match table_failure E item with None => Ok tt | Some e => Raise e end, t) /\
    forallb (fun ev => negb (ends_transaction ev)) t = true /\
    commits t = 0 /\ rollbacks t = 0 /\
    (table_failure E item = None -> flat_map executed t = [fst item]).
Proof.
  destruct item as [file_name schema].
  unfold import_table, table_failure, call, with_, bind, emit.
  destruct (raises E (Execute _ _)) as [e|]; [eexists; repeat split; discriminate|].
  destruct (raises E (OpenRead _)) as [e|]; [eexists; repeat split; discriminate|].
  destruct (raises E (CopyExpert _ _)) as [e|]; eexists; repeat split; discriminate.
Qed.

Lemma import_loop_cases table_schema :
  exists t,
    for_each table_schema (import_table E) =
      (match first_failure E table_schema with None => Ok tt | Some e => Raise e end, t) /\
    forallb (fun ev => negb (ends_transaction ev)) t = true /\
    commits t = 0 /\ rollbacks t = 0 /\
    (first_failure E table_schema = None -> flat_map executed t = dict_keys table_schema).
Proof.
  induction table_schema as [|item rest IH].
  - exists []. repeat split.
  - destruct IH as (t2 & Hrun & Hopen & Hc & Hr & Hex).
    destruct (import_table_cases item) as (t1 & Hrun1 & Hopen1 & Hc1 & Hr1 & Hex1).
    cbn [for_each first_failure]. unfold bind. rewrite Hrun1.
    destruct (table_failure E item) as [e|].
    + exists t1. repeat split; try assumption. discriminate.
    + rewrite Hrun. exists (t1 ++ t2). split; [reflexivity|].
      rewrite forallb_app, Hopen1, Hopen, commits_app, rollbacks_app, Hc, Hc1, Hr, Hr1.
      repeat split. intros Hnone. rewrite flat_map_app, (Hex1 eq_refl), (Hex Hnone).
      reflexivity.
Qed.

End Transaction.

Lemma commits_cons ev t : commits (ev :: t) = (if is_commit ev then 1 else 0) + commits t.
Proof. unfold commits. simpl. destruct (is_commit ev); reflexivity. Qed.

Lemma rollbacks_cons ev t : rollbacks (ev :: t) = (if is_rollback ev then 1 else 0) + rollbacks t.
Proof. unfold rollbacks. simpl. destruct (is_rollback ev); reflexivity. Qed.

Lemma db_after_open t :
  forallb (fun ev => negb (ends_transaction ev)) t = true ->
  db_after t = {| pending := flat_map executed t; durable := [] |}.
Proof. intros H. unfold db_after. rewrite (open_transaction t _ H). reflexivity. Qed.

Lemma db_after_session c t post :
  forallb (fun ev => negb (ends_transaction ev)) t = true ->
  db_after (Done (Connect c) :: Done OpenCursor :: t ++ post) =
  fold_left db_step post {| pending := flat_map executed t; durable := [] |}.
Proof.
  intros H. unfold db_after. cbn [fold_left db_step].
  rewrite fold_left_app, (open_transaction t _ H). reflexivity.
Qed.

Ltac count_calls :=
  repeat (rewrite ?commits_app, ?rollbacks_app, ?commits_cons, ?rollbacks_cons;
          cbn [is_commit is_rollback Nat.add]);
  change (commits []) with 0; change (rollbacks []) with 0.

(** ** The serializer *)

Section SerializerFacts.
Variable E : env.

Lemma save_df_to_csv_files (A : Type) (a : A) d :
  csv_files (snd (save_df_to_csv E a d)) = saved_tables E d.
Proof.
  unfold save_df_to_csv. induction d as [|[k df] rest IH]; [reflexivity|].
  cbn [for_each saved_tables].
  match goal with |- context [for_each rest ?b] => destruct (for_each rest b) as [r t] end.
  cbn [snd] in IH. unfold bind, call, returns, log, emit.
  destruct (raises E (ToCsv (k ++ lit ".csv") (columns df) df)) as [e|]; [reflexivity|].
  destruct r; cbn [snd app csv_files flat_map csv_written];
    fold (csv_files t); rewrite IH; reflexivity.
Qed.

End SerializerFacts.

(** ** The orchestrator *)

Section OrchestratorFacts.
Variable W : Type.
Variable S : stages W.

Lemma main_no_files w w1 :
  run_find_data_files S (run_log S INFO (lit "Starting data import process") [] w) = (Ok [], w1) ->
  main S w = (SystemExit 1,
              run_log S ERROR (lit "Script failed: %s")
                [AStr (lit "No data files found to process")] w1).
Proof.
  intros H. unfold main, main_body, sbind. rewrite H. reflexivity.
Qed.

Lemma main_no_tables w data_files w1 w2 w3 :
  run_find_data_files S (run_log S INFO (lit "Starting data import process") [] w)
    = (Ok data_files, w1) ->
  data_files <> [] ->
  run_configure_data_dir S data_files (lit "unprocessed_data") w1 = (Ok tt, w2) ->
  run_create_df_dict S data_files (lit "unprocessed_data") w2 = (Ok [], w3) ->
  main S w = (SystemExit 1,
              run_log S ERROR (lit "Script failed: %s")
                [AStr (lit "Failed to process any data files")] w3).
Proof.
  intros H1 Hne H2 H3. unfold main, main_body, sbind. rewrite H1.
  destruct data_files as [|f fs]; [contradiction|].
  unfold sret. rewrite H2, H3. reflexivity.
Qed.

End OrchestratorFacts.

(** ** File discovery *)

Section DiscoveryFacts.
Context {U : Unicode}.

Lemma keep_data_files l acc :
  fold_left (fun (acc : list str) f =>
               if is_config_file f then acc
               else if has_data_suffix f then acc ++ [f] else acc) l acc
  = acc ++ filter is_data_file l.
Proof.
  revert acc. induction l as [|f r IH]; intros acc; [symmetry; apply app_nil_r|].
  cbn [fold_left filter]. rewrite IH. unfold is_data_file.
  destruct (is_config_file f); [reflexivity|].
  destruct (has_data_suffix f); cbn [negb andb]; [|reflexivity].
  rewrite <- app_assoc. reflexivity.
Qed.

Lemma find_data_files_returns E :
  raises E (Listdir (cwd E)) = None ->
  fst (find_data_files E) = Ok (filter is_data_file (dir_entries E (cwd E))).
Proof.
  intros H. unfold find_data_files.
  rewrite (fst_bind_ok _ _ tt) by (unfold call; rewrite H; reflexivity).
  rewrite (fst_bind_ok _ _ tt) by reflexivity.
  rewrite (fst_bind_ok _ _ (filter is_data_file (dir_entries E (cwd E)))); [reflexivity|].
  rewrite (for_fold_returns
             (fun (acc : list str) f =>
                if is_config_file f then acc
                else if has_data_suffix f then acc ++ [f] else acc)).
  - rewrite keep_data_files. reflexivity.
  - intros acc x. destruct (is_config_file x); [reflexivity|].
    destruct (has_data_suffix x); reflexivity.
Qed.

Lemma is_config_file_ascii f :
  forallb is_ascii f = true ->
  is_config_file f = str_in (map ascii_lower f) config_names.
Proof. intros H. unfold is_config_file. rewrite (str_lower_ascii f H). reflexivity. Qed.

End DiscoveryFacts.

(** Evaluates the tests of [find_data_files] on ASCII names. *)
Ltac eval_names :=
  unfold is_data_file;
  repeat (rewrite is_config_file_ascii by reflexivity);
  repeat (rewrite str_lower_ascii by reflexivity);
  repeat (rewrite clean_text_ascii by reflexivity).

(** ** The claims of the specification *)

Lemma drop_leading_all c s :
  forallb (fun x => N.eqb x c) s = true -> drop_leading c s = [].
Proof.
  induction s as [|x r IH]; [reflexivity|]. cbn [forallb drop_leading]. intros H.
  apply andb_true_iff in H as [Hx Hr]. rewrite Hx. exact (IH Hr).
Qed.

Section NormaliserClaims.
Context {U : Unicode}.

(** C1. The code of [clean_text] computes, on every string, what the ordered
    steps (a) to (g) of the specification describe ([clean_text_spec]); the
    Turkish sample normalises to "iscigusoci" and "test.file.csv" to
    "test". *)
Theorem clean_text_refines_spec :
  (forall text, clean_text text = clean_text_spec text) /\
  clean_text turk_sample = lit "iscigusoci" /\
  clean_text (lit "test.file.csv") = lit "test".
Proof.
  split; [exact clean_text_eq_spec|]. split; eval_clean_text.
Qed.

(** C7. Whatever the input, the result of [clean_text] does not start with a
    digit, holds no dot, holds no two consecutive underscores, neither
    starts nor ends with an underscore, and is made of characters of
    [[a-z0-9_]] only. *)
Theorem clean_text_is_identifier text :
  starts_with_digit (clean_text text) = false /\
  has_char DOT (clean_text text) = false /\
  no_double_underscore (clean_text text) = true /\
  starts_with_char UNDERSCORE (clean_text text) = false /\
  ends_with_char UNDERSCORE (clean_text text) = false /\
  forallb safe_char (clean_text text) = true.
Proof.
  destruct (clean_text_valid text) as (Hdigit & Hdouble & Hstart & Hend & Hsafe).
  repeat split; try assumption. apply safe_no_dot, Hsafe.
Qed.

(** C8. On a string of safe characters, normalising twice is normalising
    once. *)
Theorem clean_text_idempotent_on_safe x :
  forallb safe_char x = true ->
  clean_text (clean_text x) = clean_text x.
Proof.
  intros _. destruct (clean_text_valid x) as (Hdigit & Hdouble & Hstart & Hend & Hsafe).
  apply clean_text_fixpoint; assumption.
Qed.

(** C9. A name that is not empty can normalise to the empty string: "###"
    does, and so does every text whose characters all become underscores in
    step (d); the prefix "col_" is not added to an empty result.  The empty
    name then serves as the key of a table in [clean_file_names] and as the
    name of a column in the schema of [process_dataframes]. *)
Theorem clean_text_can_be_empty :
  lit "###" <> [] /\
  clean_text (lit "###") = [] /\
  (forall text,
     forallb is_underscore
       (unsafe_to_underscore
          (str_lower (map turkish_to_ascii (dots_to_underscores (strip_extension text)))))
     = true ->
     clean_text text = []) /\
  fst (clean_file_names [lit "###.csv"] [(lit "###.csv", empty_frame)])
    = Ok ([[]], [([], empty_frame)]) /\
  fst (process_dataframes
         [(lit "t", {| columns := [LStr (lit "###")]; dtypes := [lit "int64"]; rows := [] |})])
    = Ok ([(lit "t", lit " BIGINT")],
          [(lit "t", {| columns := [LStr []]; dtypes := [lit "int64"]; rows := [] |})]).
Proof.
  split; [discriminate|]. split; [eval_names; reflexivity|]. split; [|split].
  - intros text H. rewrite clean_text_eq_spec. unfold clean_text_spec.
    rewrite (drop_leading_all UNDERSCORE); [reflexivity|].
    exact (forallb_incl _ _ _ (collapse_incl _) H).
  - unfold clean_file_names. cbn [for_fold]. eval_names. reflexivity.
  - unfold process_dataframes. cbn [for_fold columns clean_text_of].
    eval_names. reflexivity.
Qed.

End NormaliserClaims.

(** The Turkish sample under the concrete Unicode tables. *)
Lemma clean_text_refines_spec_witness :
  @clean_text basic_unicode turk_sample = lit "iscigusoci".
Proof. exact (proj1 (proj2 (@clean_text_refines_spec basic_unicode))). Defined.

Lemma clean_text_is_identifier_witness :
  @clean_text basic_unicode (lit "2024 Q1.Sales__report.xlsx") = lit "col_2024_q1" /\
  no_double_underscore (@clean_text basic_unicode (lit "2024 Q1.Sales__report.xlsx")) = true.
Proof.
  split; [reflexivity|].
  exact (proj1 (proj2 (proj2
    (@clean_text_is_identifier basic_unicode (lit "2024 Q1.Sales__report.xlsx"))))).
Defined.

Lemma clean_text_idempotent_on_safe_witness :
  forallb safe_char (lit "1__a_") = true /\
  @clean_text basic_unicode (@clean_text basic_unicode (lit "1__a_"))
  = @clean_text basic_unicode (lit "1__a_").
Proof.
  split; [reflexivity|].
  apply (@clean_text_idempotent_on_safe basic_unicode (lit "1__a_")). reflexivity.
Defined.

Lemma clean_text_can_be_empty_witness :
  @clean_text basic_unicode (lit "@ @.txt") = [].
Proof.
  apply (proj1 (proj2 (proj2 (@clean_text_can_be_empty basic_unicode)))). reflexivity.
Defined.

Section StageClaims.
Context {U : Unicode}.

(** C3. The dtype [complex128] is no key of [DTYPE_MAPPING];
    [process_dataframes] gives the column of [complex_frame] the type
    "complex128", the name of the dtype itself, where the specification
    promises VARCHAR: [replace] leaves a value that is no key as it is, and
    the entry "default" is never looked up. *)
Theorem process_dataframes_keeps_unknown_dtype :
  dict_get (lit "complex128") DTYPE_MAPPING = None /\
  dict_get (lit "default") DTYPE_MAPPING = Some (lit "VARCHAR") /\
  fst (process_dataframes [(lit "t", complex_frame)])
  = Ok ([(lit "t", lit "z complex128")], [(lit "t", complex_frame)]).
Proof.
  split; [reflexivity|]. split; [reflexivity|].
  unfold process_dataframes, complex_frame. cbn [for_fold columns clean_text_of].
  eval_names. reflexivity.
Qed.

(** C4. [find_data_files] returns exactly "a.csv", "b.xlsx" and "c.json" of
    the listing of the specification, and leaves out "Config.json" and
    "CONFIG.Template.json", the reserved names in another case; it also
    leaves out "DATA.CSV", whose extension is ".csv" once lower-cased: the
    suffixes are compared as they are written. *)
Theorem find_data_files_suffix_case :
  fst (find_data_files
         (quiet_env [lit "a.csv"; lit "b.xlsx"; lit "c.json"; lit "config.json"; lit "d.py"]))
  = Ok [lit "a.csv"; lit "b.xlsx"; lit "c.json"] /\
  fst (find_data_files (quiet_env [lit "Config.json"; lit "CONFIG.Template.json"])) = Ok [] /\
  fst (find_data_files (quiet_env [lit "DATA.CSV"])) = Ok [] /\
  str_lower (snd (splitext (lit "DATA.CSV"))) = lit ".csv".
Proof.
  rewrite !find_data_files_returns by reflexivity.
  cbn [quiet_env dir_entries cwd filter]. eval_names. repeat split; reflexivity.
Qed.

(** C6. [create_df_dict] never raises: it returns the mapping built from the
    files that load, each failing file leaving the mapping as it was and
    adding one to the error count.  The count is the number of files that
    cannot be loaded; it is the argument of the last logging call and no
    part of the value returned. *)
Theorem create_df_dict_skips_failures (E : env) (data_files : list str) (data_directory : str) :
  fst (create_df_dict E data_files data_directory)
    = Ok (fst (after_files E (path_join (cwd E) data_directory) data_files)) /\
  fst (create_df_dict_loop E data_files (path_join (cwd E) data_directory))
    = Ok (after_files E (path_join (cwd E) data_directory) data_files) /\
  snd (after_files E (path_join (cwd E) data_directory) data_files)
    = List.length (filter (cannot_load E (path_join (cwd E) data_directory)) data_files) /\
  exists t,
    snd (create_df_dict E data_files data_directory)
    = t ++ [Done (Log INFO (lit "Data loading completed with %d errors")
                    [AInt (snd (after_files E (path_join (cwd E) data_directory) data_files))])].
Proof.
  destruct (create_df_dict_returns E data_files data_directory) as [Hret Hlog].
  split; [exact Hret|]. split; [apply create_df_dict_loop_returns|].
  split; [apply after_files_count | exact Hlog].
Qed.

(** C10. [save_df_to_csv] does not read its first parameter: two calls that
    differ in it only are the same computation, and the files written are
    one per key of the dictionary, named after the key, holding the frame of
    that key (up to the first write that raises). *)
Theorem save_df_to_csv_ignores_first_parameter
    (E : env) (A B : Type) (a : A) (b : B) (dataframe_dict : dict DataFrame) :
  save_df_to_csv E a dataframe_dict = save_df_to_csv E b dataframe_dict /\
  csv_files (snd (save_df_to_csv E a dataframe_dict)) = saved_tables E dataframe_dict /\
  csv_files (snd (save_df_to_csv E b dataframe_dict)) = saved_tables E dataframe_dict.
Proof.
  split; [reflexivity|]. split; apply save_df_to_csv_files.
Qed.

End StageClaims.

(** C6, as the specification words it, fails: no function of the value
    returned gives the error count.  Without files and with one file of an
    unsupported type the loader returns the same empty mapping, after no
    error and after one. *)
Lemma create_df_dict_returns_no_count :
  ~ (exists count_of : dict DataFrame -> nat,
       forall data_files returned locals,
         fst (@create_df_dict basic_unicode (quiet_env []) data_files (lit "unprocessed_data"))
           = Ok returned ->
         fst (@create_df_dict_loop basic_unicode (quiet_env []) data_files
                (path_join (cwd (quiet_env [])) (lit "unprocessed_data")))
           = Ok locals ->
         count_of returned = snd locals).
Proof.
  intros [count_of H].
  pose proof (H [] [] ([], 0) eq_refl eq_refl) as H0.
  pose proof (H [lit "notes.txt"] [] ([], 1) eq_refl eq_refl) as H1.
  simpl in H0, H1. congruence.
Qed.

Lemma create_df_dict_skips_failures_witness :
  fst (@create_df_dict basic_unicode unreadable_csv
         [lit "broken.csv"; lit "notes.txt"] (lit "unprocessed_data")) = Ok [] /\
  fst (@create_df_dict_loop basic_unicode unreadable_csv
         [lit "broken.csv"; lit "notes.txt"] (lit "/work/unprocessed_data")) = Ok ([], 2).
Proof.
  destruct (@create_df_dict_skips_failures basic_unicode unreadable_csv
              [lit "broken.csv"; lit "notes.txt"] (lit "unprocessed_data"))
    as (Hret & Hloop & _).
  split; [exact Hret | exact Hloop].
Defined.

Lemma save_df_to_csv_ignores_first_parameter_witness :
  csv_files (snd (save_df_to_csv (quiet_env []) [lit "ignored"] [(lit "t", complex_frame)]))
  = [(lit "t.csv", [LStr (lit "z")], complex_frame)].
Proof.
  exact (proj1 (proj2 (save_df_to_csv_ignores_first_parameter
                         (quiet_env []) (list str) nat [lit "ignored"] 0
                         [(lit "t", complex_frame)]))).
Defined.

Lemma process_dataframes_keeps_unknown_dtype_witness :
  fst (@process_dataframes basic_unicode [(lit "t", complex_frame)])
  = Ok ([(lit "t", lit "z complex128")], [(lit "t", complex_frame)]).
Proof.
  exact (proj2 (proj2 (@process_dataframes_keeps_unknown_dtype basic_unicode))).
Defined.

Lemma find_data_files_suffix_case_witness :
  fst (@find_data_files basic_unicode (quiet_env [lit "DATA.CSV"])) = Ok [].
Proof.
  exact (proj1 (proj2 (proj2 (@find_data_files_suffix_case basic_unicode)))).
Defined.

(** C2. With the connection and the cursor open: when every step of the loop
    succeeds, [conn.commit()] is called exactly once; if that call returns,
    there is no rollback, the function returns and every table is durable;
    if that call raises, exactly one rollback follows and no table is
    durable.  When a step of the loop raises, there is no commit and exactly
    one rollback, and no table is durable.  In both cases of failure the
    error that reaches the caller is the first one raised (that of the
    commit, or that of the step of the loop) when [conn.rollback()] returns,
    and the error of [conn.rollback()] when that call raises too. *)
Theorem import_to_postgres_atomic (E : env) (table_schema conn_dict : dict str) :
  raises E (Connect conn_dict) = None ->
  raises E OpenCursor = None ->
  let run := import_to_postgres E table_schema conn_dict in
  (first_failure E table_schema = None ->
     commits (snd run) = 1 /\
     (raises E Commit = None ->
        fst run = Ok tt /\ rollbacks (snd run) = 0 /\
        durable (db_after (snd run)) = dict_keys table_schema) /\
     (forall e, raises E Commit = Some e ->
        rollbacks (snd run) = 1 /\ durable (db_after (snd run)) = [] /\
        (raises E Rollback = None -> fst run = Raise e) /\
        (forall e', raises E Rollback = Some e' -> fst run = Raise e'))) /\
  (forall e, first_failure E table_schema = Some e ->
     commits (snd run) = 0 /\ rollbacks (snd run) = 1 /\
     durable (db_after (snd run)) = [] /\
     (raises E Rollback = None -> fst run = Raise e) /\
     (forall e', raises E Rollback = Some e' -> fst run = Raise e')).
Proof.
  intros Hconn Hcur run. subst run.
  destruct (import_loop_cases E table_schema) as (t & Hrun & Hopen & Hc & Hr & Hex).
  unfold import_to_postgres, import_transaction, with_, try_except, bind, call, log, emit, raise.
  rewrite Hconn, Hcur, Hrun.
  split.
  - intros Hnone. rewrite Hnone in *. specialize (Hex eq_refl).
    destruct (raises E Commit) as [e|] eqn:Hcommit;
      [destruct (raises E Rollback) as [e'|] eqn:Hrb|];
      cbn [fst snd app]; rewrite <- ?app_assoc; cbn [app];
      (split; [count_calls; rewrite ?Hc, ?Hr; lia|]); split;
      try discriminate; try (intros e0 He0; injection He0 as <-);
      try (intros _);
      rewrite ?(db_after_session _ _ _ Hopen), ?Hex; cbn [fold_left db_step durable pending app];
      repeat split; try discriminate; try reflexivity; try (intros; congruence);
      try (count_calls; rewrite ?Hc, ?Hr; lia).
  - intros e Hsome. rewrite Hsome in *.
    destruct (raises E Rollback) as [e'|] eqn:Hrb;
      cbn [fst snd app]; rewrite <- ?app_assoc; cbn [app];
      rewrite ?(db_after_session _ _ _ Hopen); cbn [fold_left db_step durable pending app];
      repeat split; try discriminate; try reflexivity; try (intros; congruence);
      try (count_calls; rewrite ?Hc, ?Hr; lia).
Qed.

(** C2, as the specification words it, fails: every step of the loop can
    succeed and a rollback be issued all the same, when it is the commit
    that raises. *)
Lemma commit_failure_is_rolled_back :
  ~ (forall (E : env) (table_schema conn_dict : dict str),
       raises E (Connect conn_dict) = None ->
       raises E OpenCursor = None ->
       first_failure E table_schema = None ->
       commits (snd (import_to_postgres E table_schema conn_dict)) = 1 /\
       rollbacks (snd (import_to_postgres E table_schema conn_dict)) = 0).
Proof.
  intros H.
  destruct (H commit_fails two_tables [] eq_refl eq_refl eq_refl) as [_ Hr].
  vm_compute in Hr. discriminate.
Qed.

(** The copy into the second of two tables raises: nothing is committed.
    The commit and the rollback both raise: the error of the rollback
    reaches the caller. *)
Lemma import_to_postgres_atomic_witness :
  (first_failure copy_fails two_tables = Some db_error /\
   commits (snd (import_to_postgres copy_fails two_tables [])) = 0 /\
   rollbacks (snd (import_to_postgres copy_fails two_tables [])) = 1 /\
   durable (db_after (snd (import_to_postgres copy_fails two_tables []))) = [] /\
   fst (import_to_postgres copy_fails two_tables []) = Raise db_error) /\
  (commits (snd (import_to_postgres commit_and_rollback_fail two_tables [])) = 1 /\
   rollbacks (snd (import_to_postgres commit_and_rollback_fail two_tables [])) = 1 /\
   fst (import_to_postgres commit_and_rollback_fail two_tables []) = Raise rollback_error).
Proof.
  split.
  - destruct (proj2 (import_to_postgres_atomic copy_fails two_tables [] eq_refl eq_refl)
                db_error eq_refl) as (Hc & Hr & Hd & He & _).
    split; [reflexivity|]. split; [exact Hc|]. split; [exact Hr|]. split; [exact Hd|].
    apply He. reflexivity.
  - destruct (proj1 (import_to_postgres_atomic commit_and_rollback_fail two_tables []
                       eq_refl eq_refl) eq_refl) as (Hc & _ & Hfail).
    destruct (Hfail db_error eq_refl) as (Hr & _ & _ & He).
    split; [exact Hc|]. split; [exact Hr|]. apply He. reflexivity.
Defined.

(** C5. When discovery returns no file, [main] ends with [sys.exit(1)] in the
    world that discovery left, with one more record in the log: staging,
    loading and the later stages have not run.  When the mapping returned by
    the loader is empty, [main] ends with [sys.exit(1)] in the world that
    the loader left, with one more record in the log: name cleaning, schema
    derivation, serialisation and the database load have not run.  In both
    cases the result is the same for any other choice of the later
    stages. *)
Theorem main_aborts_on_guards (W : Type) (S : stages W) (w : W) :
  (forall w1,
     run_find_data_files S (run_log S INFO (lit "Starting data import process") [] w)
       = (Ok [], w1) ->
     main S w = (SystemExit 1,
                 run_log S ERROR (lit "Script failed: %s")
                   [AStr (lit "No data files found to process")] w1) /\
     exit_status (fst (main S w)) = 1 /\
     forall S' : stages W,
       run_find_data_files S' = run_find_data_files S ->
       run_log S' = run_log S ->
       main S' w = main S w) /\
  (forall data_files w1 w2 w3,
     run_find_data_files S (run_log S INFO (lit "Starting data import process") [] w)
       = (Ok data_files, w1) ->
     data_files <> [] ->
     run_configure_data_dir S data_files (lit "unprocessed_data") w1 = (Ok tt, w2) ->
     run_create_df_dict S data_files (lit "unprocessed_data") w2 = (Ok [], w3) ->
     main S w = (SystemExit 1,
                 run_log S ERROR (lit "Script failed: %s")
                   [AStr (lit "Failed to process any data files")] w3) /\
     exit_status (fst (main S w)) = 1 /\
     forall S' : stages W,
       run_find_data_files S' = run_find_data_files S ->
       run_configure_data_dir S' = run_configure_data_dir S ->
       run_create_df_dict S' = run_create_df_dict S ->
       run_log S' = run_log S ->
       main S' w = main S w).
Proof.
  split.
  - intros w1 H. pose proof (main_no_files W S w w1 H) as Hm.
    split; [exact Hm|]. split; [rewrite Hm; reflexivity|].
    intros S' Hf Hl. rewrite Hm.
    rewrite (main_no_files W S' w w1) by (rewrite Hf, Hl; exact H).
    rewrite Hl. reflexivity.
  - intros data_files w1 w2 w3 H1 Hne H2 H3.
    pose proof (main_no_tables W S w data_files w1 w2 w3 H1 Hne H2 H3) as Hm.
    split; [exact Hm|]. split; [rewrite Hm; reflexivity|].
    intros S' Hf Hc Hd Hl. rewrite Hm.
    rewrite (main_no_tables W S' w data_files w1 w2 w3)
      by (rewrite ?Hf, ?Hc, ?Hd, ?Hl; assumption).
    rewrite Hl. reflexivity.
Qed.

(** A directory without data files, and a directory whose only data file
    cannot be parsed. *)
Lemma main_aborts_on_guards_witness :
  exit_status
    (fst (main (@pgdatahub basic_unicode (quiet_env [lit "config.json"; lit "notes.txt"])) []))
  = 1 /\
  exit_status (fst (main (@pgdatahub basic_unicode unreadable_csv) [])) = 1.
Proof.
  split.
  - refine (proj1 (proj2 (proj1 (main_aborts_on_guards (list event)
              (@pgdatahub basic_unicode (quiet_env [lit "config.json"; lit "notes.txt"])) [])
              _ _))).
    vm_compute. reflexivity.
  - refine (proj1 (proj2 (proj2 (main_aborts_on_guards (list event)
              (@pgdatahub basic_unicode unreadable_csv) [])
              [lit "broken.csv"] _ _ _ _ _ _ _))).
    + vm_compute. reflexivity.
    + discriminate.
    + vm_compute. reflexivity.
    + vm_compute. reflexivity.
Defined.

(** ** Further properties *)

Lemma dict_set_fresh {V : Type} (k : str) (v : V) (d : dict V) :
  ~ In k (dict_keys d) -> dict_set k v d = d ++ [(k, v)].
Proof.
  induction d as [|[k' v'] r IH]; intros Hk; [reflexivity|].
  cbn [dict_set app]. destruct (str_eqb k' k) eqn:He.
  - apply str_eqb_eq in He. exfalso. apply Hk. left. exact He.
  - rewrite IH; [reflexivity|]. intros Hin. apply Hk. right. exact Hin.
Qed.

Lemma dict_set_present {V : Type} (k : str) (v v0 : V) (pre rest : dict V) :
  ~ In k (dict_keys pre) ->
  dict_set k v (pre ++ (k, v0) :: rest) = pre ++ (k, v) :: rest.
Proof.
  induction pre as [|[k' v'] r IH]; intros Hk.
  - cbn [dict_set app]. rewrite str_eqb_refl. reflexivity.
  - cbn [dict_set app]. destruct (str_eqb k' k) eqn:He.
    + apply str_eqb_eq in He. exfalso. apply Hk. left. exact He.
    + rewrite IH; [reflexivity|]. intros Hin. apply Hk. right. exact Hin.
Qed.

Section FurtherProperties.
Context {U : Unicode}.

(** The schemas and the frames after the tables [rest], when the tables
    [pre] before them are done. *)
Lemma process_step (pre rest : dict DataFrame) :
  NoDup (dict_keys (pre ++ rest)) ->
  fold_left
    (fun (acc : dict str * dict DataFrame) (kv : str * DataFrame) =>
       (dict_set (fst kv) (table_schema_of (cleaned (snd kv))) (fst acc),
        dict_set (fst kv) (cleaned (snd kv)) (snd acc)))
    rest
    (map (fun kv => (fst kv, table_schema_of (cleaned (snd kv)))) pre,
     map (fun kv => (fst kv, cleaned (snd kv))) pre ++ rest)
  = (map (fun kv => (fst kv, table_schema_of (cleaned (snd kv)))) (pre ++ rest),
     map (fun kv => (fst kv, cleaned (snd kv))) (pre ++ rest)).
Proof.
  revert pre. induction rest as [|[k df] rest IH]; intros pre Hnd.
  - cbn [fold_left]. rewrite !app_nil_r. reflexivity.
  - assert (Hk : ~ In k (dict_keys pre)).
    { unfold dict_keys in *. rewrite map_app in Hnd. cbn [map fst] in Hnd.
      apply NoDup_remove_2 in Hnd. intros Hin. apply Hnd, in_or_app. left. exact Hin. }
    cbn [fold_left fst snd].
    rewrite dict_set_fresh
      by (unfold dict_keys; rewrite map_map; cbn [fst]; exact Hk).
    rewrite dict_set_present
      by (unfold dict_keys; rewrite map_map; cbn [fst]; exact Hk).
    specialize (IH (pre ++ [(k, df)])).
    rewrite <- !app_assoc in IH. rewrite !map_app in IH.
    cbn [map app fst snd] in IH. rewrite <- ?app_assoc in IH. cbn [app] in IH.
    rewrite !map_app. cbn [map fst snd]. apply IH, Hnd.
Qed.

(** X1. [clean_text] is idempotent on every string, safe or not. *)
Theorem clean_text_idempotent_everywhere text :
  clean_text (clean_text text) = clean_text text.
Proof.
  destruct (clean_text_valid text) as (Hdigit & Hdouble & Hstart & Hend & Hsafe).
  apply clean_text_fixpoint; assumption.
Qed.

(** X2. When the directory can be listed, [find_data_files] returns the
    entries that are not a reserved name (in any case) and that end with
    one of the enumerated suffixes, as written; no other entry. *)
Theorem find_data_files_membership (E : env) (f : str) :
  raises E (Listdir (cwd E)) = None ->
  exists data_files,
    fst (find_data_files E) = Ok data_files /\
    (In f data_files <->
     In f (dir_entries E (cwd E)) /\ is_config_file f = false /\ has_data_suffix f = true).
Proof.
  intros H. exists (filter is_data_file (dir_entries E (cwd E))).
  split; [apply find_data_files_returns, H|].
  rewrite filter_In. unfold is_data_file. rewrite andb_true_iff, negb_true_iff.
  tauto.
Qed.

Lemma bind_ret {A B : Type} (a : A) (k : A -> M B) : bind (ret a) k = k a.
Proof. unfold bind, ret. destruct (k a). reflexivity. Qed.

(** The comprehension over the labels of a frame stops at the first label
    that is no str. *)
Lemma clean_headers_loop (cols : list label) (acc : list str) :
  for_fold cols acc (fun cols col =>
    bind (clean_text_of col) (fun clean_col => ret (cols ++ [clean_col])))
  = (match non_text_label cols with
     | Some type_name => Raise (not_iterable type_name)
     | None => Ok (acc ++ map (fun col => clean_text (label_str col)) cols)
     end, []).
Proof.
  revert acc. induction cols as [|[text|type_name text] rest IH]; intros acc.
  - cbn [for_fold non_text_label map]. rewrite app_nil_r. reflexivity.
  - cbn [for_fold non_text_label map clean_text_of label_str].
    rewrite !bind_ret, IH, <- app_assoc. reflexivity.
  - reflexivity.
Qed.

Lemma process_dataframes_cases (dataframes_dict : dict DataFrame) :
  fst (process_dataframes dataframes_dict)
  = match first_non_text dataframes_dict with
    | Some type_name => Raise (not_iterable type_name)
    | None =>
        Ok (fold_left
              (fun (acc : dict str * dict DataFrame) (kv : str * DataFrame) =>
                 (dict_set (fst kv) (table_schema_of (cleaned (snd kv))) (fst acc),
                  dict_set (fst kv) (cleaned (snd kv)) (snd acc)))
              dataframes_dict ([], dataframes_dict))
    end.
Proof.
  unfold process_dataframes. generalize (@nil (str * str), dataframes_dict).
  induction dataframes_dict as [|[k df] rest IH]; intros [schemas frames]; [reflexivity|].
  cbn [for_fold first_non_text fold_left fst snd]. rewrite clean_headers_loop.
  destruct (non_text_label (columns df)) as [type_name|]; [reflexivity|].
  rewrite (fst_bind_ok _ _ (dict_set k (table_schema_of (cleaned df)) schemas,
                            dict_set k (cleaned df) frames)) by reflexivity.
  apply IH.
Qed.

Lemma process_dataframes_returns (dataframes_dict : dict DataFrame) :
  first_non_text dataframes_dict = None ->
  NoDup (dict_keys dataframes_dict) ->
  fst (process_dataframes dataframes_dict)
  = Ok (map (fun kv => (fst kv, table_schema_of (cleaned (snd kv)))) dataframes_dict,
        map (fun kv => (fst kv, cleaned (snd kv))) dataframes_dict).
Proof.
  intros Htext Hnd. rewrite process_dataframes_cases, Htext.
  f_equal. exact (process_step [] dataframes_dict Hnd).
Qed.



End FurtherProperties.

(** X4. With the connection and the cursor open, the tables that are
    durable after [import_to_postgres] are none or all of them. *)
Theorem import_to_postgres_all_or_nothing (E : env) (table_schema conn_dict : dict str) :
  raises E (Connect conn_dict) = None ->
  raises E OpenCursor = None ->
  durable (db_after (snd (import_to_postgres E table_schema conn_dict))) = [] \/
  durable (db_after (snd (import_to_postgres E table_schema conn_dict)))
  = dict_keys table_schema.
Proof.
  intros Hconn Hcur.
  destruct (import_loop_cases E table_schema) as (t & Hrun & Hopen & Hc & Hr & Hex).
  unfold import_to_postgres, import_transaction, with_, try_except, bind, call, log, emit, raise.
  rewrite Hconn, Hcur, Hrun.
  destruct (first_failure E table_schema) as [e|].
  - left. destruct (raises E Rollback);
      cbn [fst snd app]; rewrite <- ?app_assoc; cbn [app];
      rewrite (db_after_session _ _ _ Hopen); reflexivity.
  - specialize (Hex eq_refl).
    destruct (raises E Commit); [left; destruct (raises E Rollback) | right];
      cbn [fst snd app]; rewrite <- ?app_assoc; cbn [app];
      rewrite (db_after_session _ _ _ Hopen), ?Hex; reflexivity.
Qed.

Lemma find_data_files_membership_witness :
  exists data_files,
    fst (@find_data_files basic_unicode (quiet_env [lit "a.csv"; lit "d.py"])) = Ok data_files /\
    (In (lit "a.csv") data_files <->
     In (lit "a.csv") [lit "a.csv"; lit "d.py"] /\
     @is_config_file basic_unicode (lit "a.csv") = false /\
     has_data_suffix (lit "a.csv") = true).
Proof.
  exact (@find_data_files_membership basic_unicode (quiet_env [lit "a.csv"; lit "d.py"])
           (lit "a.csv") eq_refl).
Defined.


Lemma import_to_postgres_all_or_nothing_witness :
  durable (db_after (snd (import_to_postgres (quiet_env []) two_tables []))) = [] \/
  durable (db_after (snd (import_to_postgres (quiet_env []) two_tables [])))
  = [lit "users"; lit "orders"].
Proof.
  exact (import_to_postgres_all_or_nothing (quiet_env []) two_tables [] eq_refl eq_refl).
Defined.

(** ** Dictionaries, continued *)

Lemma dict_set_keys {V : Type} (k : str) (v : V) (d : dict V) (x : str) :
  In x (dict_keys (dict_set k v d)) <-> x = k \/ In x (dict_keys d).
Proof.
  induction d as [|[k' v'] r IH]; cbn [dict_set dict_keys map fst In].
  - intuition auto.
  - destruct (str_eqb k' k) eqn:He; cbn [dict_keys map fst In].
    + apply str_eqb_eq in He. subst. intuition auto.
    + unfold dict_keys in IH. rewrite IH. intuition auto.
Qed.

Lemma dict_set_nodup {V : Type} (k : str) (v : V) (d : dict V) :
  NoDup (dict_keys d) -> NoDup (dict_keys (dict_set k v d)).
Proof.
  induction d as [|[k' v'] r IH]; cbn [dict_set dict_keys map fst]; intros Hnd.
  - constructor; [intros []|constructor].
  - destruct (str_eqb k' k) eqn:He; [exact Hnd|].
    cbn [map fst]. inversion Hnd as [|? ? Hk' Hr]; subst. constructor.
    + intros Hin. apply (dict_set_keys k v r k') in Hin. destruct Hin as [->|Hin].
      * rewrite str_eqb_refl in He. discriminate.
      * exact (Hk' Hin).
    + exact (IH Hr).
Qed.

Lemma dict_update_nodup {V : Type} (entries : list (str * V)) (d : dict V) :
  NoDup (dict_keys d) -> NoDup (dict_keys (dict_update d entries)).
Proof.
  unfold dict_update. revert d. induction entries as [|[k v] r IH]; intros d Hd; [exact Hd|].
  cbn [fold_left fst snd]. apply IH, dict_set_nodup, Hd.
Qed.

Lemma dict_pop_present {V : Type} (k : str) (d : dict V) :
  NoDup (dict_keys d) ->
  In k (dict_keys d) ->
  exists v d',
    dict_pop k d = Some (v, d') /\
    NoDup (dict_keys d') /\
    forall x, In x (dict_keys d') <-> In x (dict_keys d) /\ x <> k.
Proof.
  induction d as [|[k' v'] r IH]; cbn [dict_keys map fst In]; intros Hnd Hin; [contradiction|].
  inversion Hnd as [|? ? Hk' Hr]; subst. cbn [dict_pop].
  destruct (str_eqb k' k) eqn:He.
  - apply str_eqb_eq in He. subst k'. exists v', r. split; [reflexivity|].
    split; [exact Hr|]. intros x. split.
    + intros Hx. split; [right; exact Hx|]. intros ->. exact (Hk' Hx).
    + intros [[<-|Hx] Hne]; [contradiction | exact Hx].
  - assert (Hk : In k (dict_keys r)).
    { destruct Hin as [<-|Hin]; [rewrite str_eqb_refl in He; discriminate | exact Hin]. }
    destruct (IH Hr Hk) as (v & d' & Hpop & Hnd' & Hkeys). rewrite Hpop.
    exists v, ((k', v') :: d'). split; [reflexivity|]. split.
    + cbn [dict_keys map fst]. constructor; [|exact Hnd'].
      intros Hx. apply Hkeys in Hx. exact (Hk' (proj1 Hx)).
    + intros x. cbn [dict_keys map fst In]. unfold dict_keys in Hkeys. rewrite Hkeys.
      split.
      * intros [<-|[Hx Hne]]; [split; [left; reflexivity|]|split; [right; exact Hx|exact Hne]].
        intros <-. rewrite str_eqb_refl in He. discriminate.
      * intros [[<-|Hx] Hne]; [left; reflexivity | right; split; assumption].
Qed.

Lemma dict_pop_absent {V : Type} (k : str) (d : dict V) :
  ~ In k (dict_keys d) -> dict_pop k d = None.
Proof.
  induction d as [|[k' v'] r IH]; cbn [dict_keys map fst In dict_pop]; intros Hk; [reflexivity|].
  destruct (str_eqb k' k) eqn:He.
  - apply str_eqb_eq in He. exfalso. apply Hk. left. exact He.
  - rewrite IH; [reflexivity|]. intros Hin. apply Hk. right. exact Hin.
Qed.

(** ** Staging, archiving and the configuration *)

Section StagingFacts.
Variable E : env.

Lemma staging_loop data_directory data_files :
  exists t,
    for_each data_files (fun f =>
      try_except
        (bind (call E (Rename (path_join (cwd E) f) (path_join data_directory f)))
              (fun _ => log INFO "Moved '%s' to %s" [AStr f; AStr data_directory]))
        (fun e => log ERROR "Error moving file %s: %s" [AStr f; AStr (exn_msg e)]))
    = (Ok tt, t) /\
    flat_map rename_attempt t = map (staging_move E data_directory) data_files /\
    flat_map rename_done t
    = map (staging_move E data_directory)
        (filter (fun f => move_returns E (staging_move E data_directory f)) data_files).
Proof.
  induction data_files as [|f rest IH].
  - exists []. repeat split.
  - destruct IH as (t & Hrun & Hatt & Hdone).
    cbn [for_each filter]. rewrite Hrun.
    unfold move_returns, staging_move, returns. cbn [fst snd].
    unfold try_except, bind, call, log, emit.
    destruct (raises E (Rename (path_join (cwd E) f) (path_join data_directory f))) as [e|].
    + eexists. split; [reflexivity|]. cbn [app flat_map rename_attempt rename_done].
      rewrite Hatt, Hdone. split; reflexivity.
    + eexists. split; [reflexivity|]. cbn [app flat_map rename_attempt rename_done map].
      rewrite Hatt, Hdone. split; reflexivity.
Qed.

Lemma configure_data_dir_returns data_files data_directory :
  (forall e, raises E (Makedirs data_directory) = Some e -> is_class OSError e = true) ->
  fst (configure_data_dir E data_files data_directory) = Ok tt.
Proof.
  intros Hos. destruct (staging_loop data_directory data_files) as (t & Hrun & _).
  unfold configure_data_dir. rewrite Hrun.
  unfold try_except_class, try_except, bind, call, log, emit, raise.
  destruct (raises E (Makedirs data_directory)) as [e|]; [rewrite (Hos e eq_refl)|];
    reflexivity.
Qed.

(** X5. [configure_data_dir] goes on after a failure.  When [os.makedirs]
    returns or raises an OSError, the function returns; it has attempted the
    move of every file, in the order of the list, from the working directory
    into the data directory, and the files moved are those whose own
    [os.rename] returned: a move that raises stops nothing.  An exception of
    [os.makedirs] that is no OSError goes through, before any move. *)
Theorem configure_data_dir_continues data_files data_directory :
  ((forall e, raises E (Makedirs data_directory) = Some e -> is_class OSError e = true) ->
   fst (configure_data_dir E data_files data_directory) = Ok tt /\
   flat_map rename_attempt (snd (configure_data_dir E data_files data_directory))
   = map (staging_move E data_directory) data_files /\
   flat_map rename_done (snd (configure_data_dir E data_files data_directory))
   = map (staging_move E data_directory)
       (filter (fun f => move_returns E (staging_move E data_directory f)) data_files)) /\
  (forall e, raises E (Makedirs data_directory) = Some e -> is_class OSError e = false ->
   configure_data_dir E data_files data_directory
   = (Raise e, [Failed (Makedirs data_directory) e])).
Proof.
  destruct (staging_loop data_directory data_files) as (t & Hrun & Hatt & Hdone).
  unfold configure_data_dir. rewrite Hrun.
  unfold try_except_class, try_except, bind, call, log, emit, raise.
  split.
  - intros Hos. destruct (raises E (Makedirs data_directory)) as [e|].
    + rewrite (Hos e eq_refl). cbn [fst snd app flat_map rename_attempt rename_done].
      repeat split; assumption.
    + cbn [fst snd app flat_map rename_attempt rename_done]. repeat split; assumption.
  - intros e He Hcls. rewrite He, Hcls. reflexivity.
Qed.

Lemma archive_loop files :
  exists t,
    for_each files (fun file_name : str =>
      bind (call E (Rename (path_join (cwd E) (file_name ++ lit ".csv"))
                           (path_join (lit "processed_data") (file_name ++ lit ".csv"))))
           (fun _ => log INFO "Moved processed file '%s' to %s"
                       [AStr (file_name ++ lit ".csv"); AStr (lit "processed_data")]))
    = (match archive_failure E files with None => Ok tt | Some e => Raise e end, t) /\
    flat_map rename_attempt t = map (archive_move E) (archive_attempted E files) /\
    flat_map rename_done t = map (archive_move E) (archive_moved E files).
Proof.
  induction files as [|f rest IH].
  - exists []. repeat split.
  - destruct IH as (t & Hrun & Hatt & Hdone).
    cbn [for_each archive_failure archive_attempted archive_moved]. rewrite Hrun.
    unfold move_returns, archive_move, returns. cbn [fst snd].
    unfold bind, call, log, emit.
    destruct (raises E (Rename _ _)) as [e|].
    + eexists. split; [reflexivity|]. split; reflexivity.
    + eexists. split; [reflexivity|].
      cbn [app flat_map rename_attempt rename_done map]. unfold archive_move in *.
      rewrite Hatt, Hdone. split; reflexivity.
Qed.

(** X6. [move_processed_files] stops at the first failure and raises it.
    When [os.makedirs] raises, that exception reaches the caller and no move
    is attempted.  Otherwise the files are moved in the order of the list,
    each "name.csv" from the working directory into "processed_data", up to
    the first [os.rename] that raises: the files before it are moved, the
    files after it are not attempted, and its exception reaches the caller;
    without such a failure the function returns. *)
Theorem move_processed_files_stops processed_files :
  (forall e, raises E (Makedirs (lit "processed_data")) = Some e ->
     fst (move_processed_files E processed_files) = Raise e /\
     flat_map rename_attempt (snd (move_processed_files E processed_files)) = []) /\
  (raises E (Makedirs (lit "processed_data")) = None ->
     fst (move_processed_files E processed_files)
     = match archive_failure E processed_files with None => Ok tt | Some e => Raise e end /\
     flat_map rename_attempt (snd (move_processed_files E processed_files))
     = map (archive_move E) (archive_attempted E processed_files) /\
     flat_map rename_done (snd (move_processed_files E processed_files))
     = map (archive_move E) (archive_moved E processed_files)).
Proof.
  destruct (archive_loop processed_files) as (t & Hrun & Hatt & Hdone).
  unfold move_processed_files. cbv zeta. rewrite Hrun.
  unfold try_except, bind, call, log, emit, raise. split.
  - intros e He. rewrite He. split; reflexivity.
  - intros Hm. rewrite Hm.
    destruct (archive_failure E processed_files) as [e|];
      cbn [fst snd app flat_map rename_attempt rename_done];
      rewrite ?flat_map_app; cbn [flat_map rename_attempt rename_done app];
      rewrite ?app_nil_r; repeat split; assumption.
Qed.

(** X7. [load_config] either returns the "database" section of
    "config.json" or raises.  When the file cannot be opened, that exception
    reaches the caller and nothing else was called.  Once the file is open it
    is closed again, however the function ends; an exception of [json.load]
    reaches the caller; a configuration without the key "database" raises
    KeyError. *)
Theorem load_config_cases :
  (forall e, raises E (OpenRead (lit "config.json")) = Some e ->
     load_config E = (Raise e, [Failed (OpenRead (lit "config.json")) e])) /\
  (raises E (OpenRead (lit "config.json")) = None ->
     In (Done (CloseFile (lit "config.json"))) (snd (load_config E)) /\
     (forall e, raises E (JsonLoad (lit "config.json")) = Some e ->
        fst (load_config E) = Raise e) /\
     (raises E (JsonLoad (lit "config.json")) = None ->
        fst (load_config E)
        = match dict_get (lit "database") (json_config E (lit "config.json")) with
          | Some database => Ok database
          | None => Raise (key_error (lit "database"))
          end)).
Proof.
  unfold load_config, with_, bind, call, emit, ret, raise. split.
  - intros e He. rewrite He. reflexivity.
  - intros Ho. rewrite Ho.
    destruct (raises E (JsonLoad (lit "config.json"))) as [e|].
    + split; [cbn; auto|]. split; [intros e0 H0; injection H0 as <-; reflexivity|discriminate].
    + destruct (dict_get (lit "database") (json_config E (lit "config.json")));
        (split; [cbn; auto|]); split; try discriminate; reflexivity.
Qed.

End StagingFacts.

(** The directory cannot be made and "b.csv" cannot be moved: "a.csv" and
    "c.csv" are moved all the same. *)
Lemma configure_data_dir_continues_witness :
  fst (configure_data_dir staging_fails [lit "a.csv"; lit "b.csv"; lit "c.csv"]
         (lit "unprocessed_data")) = Ok tt /\
  flat_map rename_done
    (snd (configure_data_dir staging_fails [lit "a.csv"; lit "b.csv"; lit "c.csv"]
            (lit "unprocessed_data")))
  = [(lit "/work/a.csv", lit "unprocessed_data/a.csv");
     (lit "/work/c.csv", lit "unprocessed_data/c.csv")].
Proof.
  destruct (proj1 (configure_data_dir_continues staging_fails
                     [lit "a.csv"; lit "b.csv"; lit "c.csv"] (lit "unprocessed_data")))
    as (Hret & _ & Hdone).
  - intros e He. vm_compute in He. injection He as <-. reflexivity.
  - split; [exact Hret | exact Hdone].
Defined.

(** "processed_data" cannot be made: nothing is moved. *)
Lemma move_processed_files_stops_witness :
  fst (move_processed_files staging_fails [lit "a"; lit "b"]) = Raise os_error /\
  flat_map rename_attempt (snd (move_processed_files staging_fails [lit "a"; lit "b"])) = [].
Proof.
  apply (proj1 (move_processed_files_stops staging_fails [lit "a"; lit "b"]) os_error).
  reflexivity.
Defined.

Lemma load_config_cases_witness :
  fst (load_config (quiet_env [])) = Ok [(lit "host", lit "localhost")].
Proof.
  apply (proj2 (proj2 (proj2 (load_config_cases (quiet_env [])) eq_refl))). reflexivity.
Defined.

(** ** The resources of the database loader *)

Lemma with_call_trace {B : Type} (E : env) (o r : op) (body : unit -> M B) :
  raises E o = None ->
  snd (with_ (call E o) (emit r) body) = Done o :: snd (body tt) ++ [Done r].
Proof.
  intros H. unfold with_, bind, call, emit. rewrite H.
  destruct (body tt) as [[b|e] t]; reflexivity.
Qed.

Section ReleaseFacts.
Variable E : env.

Lemma import_loop_files table_schema :
  flat_map file_opened (snd (for_each table_schema (import_table E)))
  = flat_map file_closed (snd (for_each table_schema (import_table E))) /\
  (first_failure E table_schema = None ->
   flat_map file_opened (snd (for_each table_schema (import_table E)))
   = map (fun kv => fst kv ++ lit ".csv") table_schema).
Proof.
  induction table_schema as [|[file_name schema] rest [IHc IHo]]; [split; reflexivity|].
  cbn [for_each first_failure map fst].
  destruct (for_each rest (import_table E)) as [r t]. cbn [snd] in IHc, IHo.
  unfold import_table at 1 2 3. unfold table_failure, with_, bind, call, emit.
  destruct (raises E (Execute _ _)) as [e|]; [split; [reflexivity|discriminate]|].
  destruct (raises E (OpenRead _)) as [e|]; [split; [reflexivity|discriminate]|].
  destruct (raises E (CopyExpert _ _)) as [e|]; [split; [reflexivity|discriminate]|].
  cbn [fst snd app flat_map file_opened file_closed]. split.
  - rewrite IHc. reflexivity.
  - intros Hnone. rewrite (IHo Hnone). reflexivity.
Qed.

Lemma import_transaction_files table_schema :
  flat_map file_opened (snd (import_transaction E table_schema))
  = flat_map file_closed (snd (import_transaction E table_schema)).
Proof.
  destruct (import_loop_files table_schema) as [Hfiles _].
  unfold import_transaction, try_except, bind, call, log, emit, raise.
  destruct (for_each table_schema (import_table E)) as [r t]. cbn [snd] in Hfiles.
  destruct r as [[]|e];
    [destruct (raises E Commit) as [e3|]|];
    try destruct (raises E Rollback) as [e4|];
    cbn [fst snd app]; rewrite ?flat_map_app;
    cbn [flat_map file_opened file_closed app]; rewrite Hfiles; reflexivity.
Qed.

(** X8. [import_to_postgres] releases what it acquires, however it ends:
    every CSV file it has opened is closed again, in the same order; once
    the connection is open the last call closes it; once the cursor is open
    too, the last two calls close the cursor and then the connection. *)
Theorem import_to_postgres_releases (table_schema conn_dict : dict str) :
  flat_map file_opened (snd (import_to_postgres E table_schema conn_dict))
  = flat_map file_closed (snd (import_to_postgres E table_schema conn_dict)) /\
  (raises E (Connect conn_dict) = None ->
   exists t, snd (import_to_postgres E table_schema conn_dict)
             = Done (Connect conn_dict) :: t ++ [Done CloseConn]) /\
  (raises E (Connect conn_dict) = None ->
   raises E OpenCursor = None ->
   exists t, snd (import_to_postgres E table_schema conn_dict)
             = Done (Connect conn_dict) :: Done OpenCursor
               :: t ++ [Done CloseCursor; Done CloseConn]).
Proof.
  pose proof (import_transaction_files table_schema) as Hfiles.
  unfold import_to_postgres. split; [|split].
  - destruct (raises E (Connect conn_dict)) as [e1|] eqn:H1.
    { unfold with_ at 1 3. unfold bind, call. rewrite H1. reflexivity. }
    rewrite (with_call_trace E _ _ _ H1).
    destruct (raises E OpenCursor) as [e2|] eqn:H2.
    { unfold with_, bind, call, emit. rewrite H2. reflexivity. }
    rewrite (with_call_trace E _ _ _ H2).
    cbn [flat_map file_opened file_closed app].
    rewrite !flat_map_app, Hfiles. reflexivity.
  - intros H1. rewrite (with_call_trace E _ _ _ H1). eexists. reflexivity.
  - intros H1 H2. rewrite (with_call_trace E _ _ _ H1), (with_call_trace E _ _ _ H2).
    exists (snd (import_transaction E table_schema)).
    cbn [app]. rewrite <- app_assoc. reflexivity.
Qed.

Lemma import_to_postgres_opened table_schema conn_dict :
  raises E (Connect conn_dict) = None ->
  raises E OpenCursor = None ->
  first_failure E table_schema = None ->
  flat_map file_opened (snd (import_to_postgres E table_schema conn_dict))
  = map (fun k => k ++ lit ".csv") (dict_keys table_schema).
Proof.
  intros Hconn Hcur Hnone.
  destruct (import_loop_files table_schema) as [_ Hfiles]. specialize (Hfiles Hnone).
  destruct (import_loop_cases E table_schema) as (t & Hrun & _).
  unfold import_to_postgres. rewrite (with_call_trace E _ _ _ Hconn).
  rewrite (with_call_trace E _ _ _ Hcur).
  unfold import_transaction, try_except, bind, call, log, emit, raise.
  rewrite Hrun in *. rewrite Hnone. cbn [snd] in Hfiles.
  destruct (raises E Commit); [destruct (raises E Rollback)|];
    cbn [fst snd app flat_map file_opened]; rewrite !flat_map_app;
    cbn [flat_map file_opened app]; rewrite ?app_nil_r, Hfiles;
    unfold dict_keys; rewrite map_map; reflexivity.
Qed.

End ReleaseFacts.

(** The copy into the second table raises: cursor and connection are closed
    all the same. *)
Lemma import_to_postgres_releases_witness :
  exists t,
    snd (import_to_postgres copy_fails two_tables [])
    = Done (Connect []) :: Done OpenCursor :: t ++ [Done CloseCursor; Done CloseConn].
Proof.
  exact (proj2 (proj2 (import_to_postgres_releases copy_fails two_tables []))
           eq_refl eq_refl).
Defined.

(** ** Renaming the tables *)

Section RenamingFacts.
Context {U : Unicode}.

Lemma clean_file_names_loop data_files dataframe acc :
  fst (rename_loop data_files ([], dataframe)) = Ok acc ->
  fst (clean_file_names data_files dataframe) = Ok acc.
Proof.
  unfold clean_file_names. fold (rename_loop data_files ([], dataframe)).
  intros H. rewrite (fst_bind_ok _ _ acc H). destruct acc. reflexivity.
Qed.

Lemma clean_collision k k2 : clean_text k = k2 -> clean_text k2 = clean_text k.
Proof.
  intros <-. destruct (clean_text_valid k) as (H1 & H2 & H3 & H4 & H5).
  apply clean_text_fixpoint; assumption.
Qed.

Lemma rename_loop_exact (rest pre : dict DataFrame) (cleaned : list str) :
  NoDup (map clean_text (dict_keys (pre ++ rest))) ->
  fst (rename_loop (dict_keys rest) (cleaned, rest ++ map renamed_entry pre))
  = Ok (cleaned ++ map clean_text (dict_keys rest), map renamed_entry (pre ++ rest)).
Proof.
  revert pre cleaned. induction rest as [|[k v] rest IH]; intros pre cleaned Hnd.
  - cbn. rewrite !app_nil_r. reflexivity.
  - assert (Hfresh : ~ In (clean_text k) (dict_keys (rest ++ map renamed_entry pre))).
    { unfold dict_keys in *. rewrite !map_app in Hnd. cbn [map fst] in Hnd.
      rewrite map_app, map_map. cbn [renamed_entry fst].
      intros Hin. apply in_app_or in Hin. destruct Hin as [Hin|Hin].
      - (* a later original name is the cleaned name: the two names collide *)
        apply NoDup_remove_2 in Hnd. apply Hnd. apply in_or_app. right.
        rewrite <- (clean_collision k (clean_text k) eq_refl).
        apply in_map. exact Hin.
      - apply NoDup_remove_2 in Hnd. apply Hnd. apply in_or_app. left.
        rewrite map_map. exact Hin. }
    specialize (IH (pre ++ [(k, v)]) (cleaned ++ [clean_text k])).
    rewrite <- !app_assoc in IH. specialize (IH Hnd).
    rewrite map_app in IH. cbn [map app] in IH.
    unfold rename_loop in *. cbn [dict_keys map fst for_fold].
    rewrite (fst_bind_ok _ _ (cleaned ++ [clean_text k],
                              rest ++ map renamed_entry pre ++ [renamed_entry (k, v)])).
    + exact IH.
    + cbn [app dict_pop]. rewrite str_eqb_refl.
      rewrite (dict_set_fresh _ _ _ Hfresh), <- app_assoc. reflexivity.
Qed.

Lemma rename_loop_keys (fs : list str) :
  forall (cleaned : list str) (d : dict DataFrame),
    NoDup fs ->
    NoDup (dict_keys d) ->
    (forall f, In f fs -> In f (dict_keys d)) ->
    exists d',
      fst (rename_loop fs (cleaned, d)) = Ok (cleaned ++ map clean_text fs, d') /\
      NoDup (dict_keys d') /\
      forall k, In k (dict_keys d') <->
                (In k (dict_keys d) /\ ~ In k fs) \/ In k (map clean_text fs).
Proof.
  induction fs as [|f fs IH]; intros cleaned d Hfs Hd Hin.
  - exists d. rewrite app_nil_r. split; [reflexivity|]. split; [exact Hd|].
    intros k. cbn [map In]. tauto.
  - inversion Hfs as [|? ? Hf Hfs']; subst.
    destruct (dict_pop_present f d Hd (Hin f (or_introl eq_refl)))
      as (v & d1 & Hpop & Hd1 & Hk1).
    pose proof (dict_set_nodup (clean_text f) v d1 Hd1) as Hd2.
    destruct (IH (cleaned ++ [clean_text f]) (dict_set (clean_text f) v d1) Hfs' Hd2)
      as (d' & Hrun & Hd' & Hk').
    { intros g Hg. apply dict_set_keys. right. apply Hk1. split.
      - apply Hin. right. exact Hg.
      - intros ->. exact (Hf Hg). }
    exists d'. split; [|split; [exact Hd'|]].
    + unfold rename_loop in *. cbn [for_fold].
      rewrite (fst_bind_ok _ _ (cleaned ++ [clean_text f], dict_set (clean_text f) v d1)).
      * rewrite Hrun, <- app_assoc. reflexivity.
      * cbn [app]. rewrite Hpop. reflexivity.
    + intros k. rewrite Hk'. rewrite dict_set_keys, Hk1. cbn [map In]. split.
      * intros [[[->|[Hkd Hne]] Hnot]|Hc].
        -- right. left. reflexivity.
        -- left. split; [exact Hkd|]. intros [<-|Hkf]; [exact (Hne eq_refl)|exact (Hnot Hkf)].
        -- right. right. exact Hc.
      * intros [[Hkd Hnot]|[<-|Hc]].
        -- left. split; [right; split; [exact Hkd|]|].
           ++ intros ->. apply Hnot. left. reflexivity.
           ++ intros Hkf. apply Hnot. right. exact Hkf.
        -- destruct (in_dec (list_eq_dec N.eq_dec) (clean_text f) fs) as [Hcf|Hcf].
           ++ right. rewrite <- (clean_collision f (clean_text f) eq_refl).
              apply in_map. exact Hcf.
           ++ left. split; [left; reflexivity | exact Hcf].
        -- right. exact Hc.
Qed.

(** X9. When the names of the tables clean to pairwise distinct names,
    [clean_file_names], called on the keys of the dictionary as [main] calls
    it, returns the cleaned names in the order of the keys and leaves every
    table under its cleaned name, the tables in their order and none
    lost. *)
Theorem clean_file_names_renames (dataframe : dict DataFrame) :
  NoDup (map clean_text (dict_keys dataframe)) ->
  fst (clean_file_names (dict_keys dataframe) dataframe)
  = Ok (map clean_text (dict_keys dataframe), map renamed_entry dataframe).
Proof.
  intros Hnd. apply clean_file_names_loop.
  pose proof (rename_loop_exact dataframe [] [] Hnd) as H.
  cbn [map app] in H. rewrite app_nil_r in H. exact H.
Qed.

(** X10. Called on the keys of the dictionary, [clean_file_names] never
    raises: it returns the cleaned names in the order of the keys, and the
    keys of the dictionary it leaves are exactly the cleaned names.  It
    leaves no more tables than it found, and as many only when the cleaned
    names are pairwise distinct: of two tables whose names clean to the same
    name one is lost, while the list returned names it twice.  A first name
    that is no key of the dictionary raises KeyError, before anything is
    logged. *)
Theorem clean_file_names_on_own_keys (dataframe : dict DataFrame) :
  (NoDup (dict_keys dataframe) ->
   exists renamed,
     fst (clean_file_names (dict_keys dataframe) dataframe)
     = Ok (map clean_text (dict_keys dataframe), renamed) /\
     NoDup (dict_keys renamed) /\
     (forall k, In k (dict_keys renamed) <-> In k (map clean_text (dict_keys dataframe))) /\
     List.length renamed <= List.length dataframe /\
     (List.length renamed = List.length dataframe <->
      NoDup (map clean_text (dict_keys dataframe)))) /\
  (forall f data_files,
     ~ In f (dict_keys dataframe) ->
     clean_file_names (f :: data_files) dataframe = (Raise (key_error f), [])).
Proof.
  split.
  - intros Hnd.
    destruct (rename_loop_keys (dict_keys dataframe) [] dataframe Hnd Hnd (fun f H => H))
      as (renamed & Hrun & Hnd' & Hkeys).
    assert (Hset : forall k, In k (dict_keys renamed)
                             <-> In k (map clean_text (dict_keys dataframe))).
    { intros k. rewrite Hkeys. tauto. }
    assert (Hlen : List.length renamed <= List.length dataframe).
    { rewrite <- (length_map fst renamed).
      rewrite <- (length_map fst dataframe), <- (length_map clean_text (map fst dataframe)).
      apply NoDup_incl_length; [exact Hnd'|]. intros k Hk. apply Hset, Hk. }
    exists renamed. split; [apply clean_file_names_loop; exact Hrun|].
    split; [exact Hnd'|]. split; [exact Hset|]. split; [exact Hlen|]. split.
    + intros Heq. apply (@NoDup_incl_NoDup _ (dict_keys renamed)); [exact Hnd'| |].
      * unfold dict_keys. rewrite !length_map. lia.
      * intros k Hk. apply Hset, Hk.
    + intros Hc. apply Nat.le_antisymm; [exact Hlen|].
      rewrite <- (length_map fst renamed).
      rewrite <- (length_map fst dataframe), <- (length_map clean_text (map fst dataframe)).
      apply NoDup_incl_length; [exact Hc|]. intros k Hk. apply Hset, Hk.
  - intros f data_files Hf. unfold clean_file_names. cbn [for_fold].
    rewrite (dict_pop_absent f dataframe Hf). reflexivity.
Qed.

End RenamingFacts.

Lemma clean_file_names_renames_witness :
  fst (@clean_file_names basic_unicode (dict_keys two_files) two_files)
  = Ok ([lit "sales_2024"; lit "b"],
        [(lit "sales_2024", empty_frame); (lit "b", complex_frame)]).
Proof.
  apply (@clean_file_names_renames basic_unicode two_files).
  apply NoDup_cons; [intros [H|[]]; vm_compute in H; discriminate H|].
  apply NoDup_cons; [intros []|apply NoDup_nil].
Defined.

(** "a.csv" and "a.json" both clean to "a": one table is left. *)
Lemma clean_file_names_on_own_keys_witness :
  exists renamed,
    fst (@clean_file_names basic_unicode (dict_keys same_stem) same_stem)
    = Ok ([lit "a"; lit "a"], renamed) /\
    List.length renamed <= 2.
Proof.
  destruct (proj1 (@clean_file_names_on_own_keys basic_unicode same_stem))
    as (renamed & Hrun & _ & _ & Hlen & _).
  - apply NoDup_cons; [intros [H|[]]; vm_compute in H; discriminate H|].
    apply NoDup_cons; [intros []|apply NoDup_nil].
  - exists renamed. split; [exact Hrun | exact Hlen].
Defined.

(** ** What follows the first dot *)

Lemma has_char_app c a b : has_char c (a ++ b) = has_char c a || has_char c b.
Proof. apply existsb_app. Qed.

Lemma before_first_app c a b :
  has_char c a = false -> before_first c (a ++ c :: b) = a.
Proof.
  induction a as [|x r IH]; cbn [app before_first]; intros H.
  - rewrite N.eqb_refl. reflexivity.
  - change (has_char c (x :: r)) with (N.eqb c x || has_char c r) in H.
    apply orb_false_iff in H as [Hx Hr]. rewrite N.eqb_sym, Hx, (IH Hr). reflexivity.
Qed.

Lemma strip_extension_app a b :
  a <> [] -> has_char DOT a = false -> strip_extension (a ++ DOT :: b) = a.
Proof.
  intros Ha Hd. unfold strip_extension. rewrite has_char_app, Hd.
  change (has_char DOT (DOT :: b)) with (N.eqb DOT DOT || has_char DOT b).
  rewrite N.eqb_refl. cbn [orb andb].
  destruct a as [|x r]; [contradiction|].
  change (has_char DOT (x :: r)) with (N.eqb DOT x || has_char DOT r) in Hd.
  apply orb_false_iff in Hd as [Hx Hr].
  cbn [app starts_with_char]. rewrite N.eqb_sym, Hx. cbn [negb].
  change (x :: r ++ DOT :: b) with ((x :: r) ++ DOT :: b).
  apply before_first_app.
  change (has_char DOT (x :: r)) with (N.eqb DOT x || has_char DOT r).
  rewrite Hx, Hr. reflexivity.
Qed.

Section ExtensionFacts.
Context {U : Unicode}.

(** X11. [clean_text] reads a name up to its first dot only: a name with a
    stem that is not empty and holds no dot cleans to what the stem alone
    cleans to, whatever follows the dot.  So "data.csv", "data.json" and
    "data.v2.csv" all give the table name of "data". *)
Theorem clean_text_drops_extension (stem rest : str) :
  stem <> [] ->
  has_char DOT stem = false ->
  clean_text (stem ++ DOT :: rest) = clean_text stem.
Proof.
  intros Ha Hd. rewrite !clean_text_eq_spec. unfold clean_text_spec.
  rewrite (strip_extension_app stem rest Ha Hd).
  unfold strip_extension. rewrite Hd. reflexivity.
Qed.

End ExtensionFacts.

Lemma clean_text_drops_extension_witness :
  @clean_text basic_unicode (lit "data.v2.csv") = @clean_text basic_unicode (lit "data").
Proof.
  apply (@clean_text_drops_extension basic_unicode (lit "data") (lit "v2.csv"));
    [discriminate | reflexivity].
Defined.

(** ** From the serializer to the loader *)

Section Handover.
Context {U : Unicode}.
Variable E : env.

Lemma saved_tables_paths (d : dict DataFrame) :
  (forall path header df, raises E (ToCsv path header df) = None) ->
  map csv_path (saved_tables E d) = map (fun k => k ++ lit ".csv") (dict_keys d).
Proof.
  intros Hq. induction d as [|[k df] rest IH]; [reflexivity|].
  cbn [saved_tables]. unfold returns. rewrite Hq.
  cbn [map dict_keys fst csv_path]. unfold dict_keys in IH. rewrite IH. reflexivity.
Qed.

(** X12. The loader reads the files the serializer wrote.  Take the schemas
    and the frames that [process_dataframes] makes of a dictionary, as
    [main] does.  When every [to_csv] returns, [save_df_to_csv] writes one
    file "key.csv" per key of the dictionary, in the order of the keys; when
    the connection and the cursor open and no step of the loop raises,
    [import_to_postgres] opens these same paths, in the same order. *)
Theorem import_reads_what_save_wrote {A : Type} (datasets : A)
    (df_dict : dict DataFrame) (schemas conn_dict : dict str) (frames : dict DataFrame) :
  NoDup (dict_keys df_dict) ->
  fst (process_dataframes df_dict) = Ok (schemas, frames) ->
  (forall path header df, raises E (ToCsv path header df) = None) ->
  raises E (Connect conn_dict) = None ->
  raises E OpenCursor = None ->
  first_failure E schemas = None ->
  map csv_path (csv_files (snd (save_df_to_csv E datasets frames)))
  = map (fun k => k ++ lit ".csv") (dict_keys df_dict) /\
  flat_map file_opened (snd (import_to_postgres E schemas conn_dict))
  = map (fun k => k ++ lit ".csv") (dict_keys df_dict).
Proof.
  intros Hnd Hrun Hcsv Hconn Hcur Hnone.
  assert (Htext : first_non_text df_dict = None).
  { rewrite process_dataframes_cases in Hrun.
    destruct (first_non_text df_dict); [discriminate Hrun | reflexivity]. }
  rewrite (process_dataframes_returns df_dict Htext Hnd) in Hrun. injection Hrun as <- <-.
  split.
  - rewrite save_df_to_csv_files, (saved_tables_paths _ Hcsv).
    unfold dict_keys. rewrite !map_map. reflexivity.
  - rewrite (import_to_postgres_opened _ _ _ Hconn Hcur Hnone).
    unfold dict_keys. rewrite !map_map. reflexivity.
Qed.

End Handover.

Lemma import_reads_what_save_wrote_witness :
  map csv_path
    (csv_files (snd (save_df_to_csv (quiet_env []) [lit "t"] [(lit "t", complex_frame)])))
  = [lit "t.csv"] /\
  flat_map file_opened
    (snd (import_to_postgres (quiet_env []) [(lit "t", lit "z complex128")] []))
  = [lit "t.csv"].
Proof.
  apply (@import_reads_what_save_wrote basic_unicode (quiet_env []) (list str) [lit "t"]
           [(lit "t", complex_frame)] [(lit "t", lit "z complex128")] []
           [(lit "t", complex_frame)]).
  - apply NoDup_cons; [intros []|apply NoDup_nil].
  - reflexivity.
  - reflexivity.
  - reflexivity.
  - reflexivity.
  - reflexivity.
Defined.

(** ** The run as a whole *)

Section Silence.
Variable P : event -> bool.

Lemma silent_ret {A : Type} (a : A) : silent P (ret a).
Proof. reflexivity. Qed.

Lemma silent_raise {A : Type} (e : exn) : silent P (@raise A e).
Proof. reflexivity. Qed.

Lemma silent_emit (o : op) : P (Done o) = true -> silent P (emit o).
Proof. intros H. unfold silent, emit. cbn [snd forallb]. rewrite H. reflexivity. Qed.

Lemma silent_call (E : env) (o : op) :
  P (Done o) = true -> (forall e, P (Failed o e) = true) -> silent P (call E o).
Proof.
  intros Hd Hf. unfold silent, call.
  destruct (raises E o) as [e|]; cbn [snd forallb]; rewrite ?Hd, ?Hf; reflexivity.
Qed.

Lemma silent_bind {A B : Type} (m : M A) (k : A -> M B) :
  silent P m -> (forall a, silent P (k a)) -> silent P (bind m k).
Proof.
  unfold silent, bind. intros Hm Hk. destruct m as [[a|e] t]; [|exact Hm].
  specialize (Hk a). destruct (k a) as [r t']. cbn [snd] in *.
  rewrite forallb_app, Hm, Hk. reflexivity.
Qed.

Lemma silent_try_except {A : Type} (m : M A) (h : exn -> M A) :
  silent P m -> (forall e, silent P (h e)) -> silent P (try_except m h).
Proof.
  unfold silent, try_except. intros Hm Hh. destruct m as [[a|e] t]; [exact Hm|].
  specialize (Hh e). destruct (h e) as [r t']. cbn [snd] in *.
  rewrite forallb_app, Hm, Hh. reflexivity.
Qed.

Lemma silent_try_except_class {A : Type} cls (m : M A) (h : exn -> M A) :
  silent P m -> (forall e, silent P (h e)) -> silent P (try_except_class cls m h).
Proof.
  intros Hm Hh. apply silent_try_except; [exact Hm|]. intros e.
  destruct (is_class cls e); [apply Hh | apply silent_raise].
Qed.

Lemma silent_with {A B : Type} (enter : M A) (release : M unit) (body : A -> M B) :
  silent P enter -> silent P release -> (forall x, silent P (body x)) ->
  silent P (with_ enter release body).
Proof.
  intros He Hr Hb. unfold with_. apply silent_bind; [exact He|]. intros x.
  specialize (Hb x). unfold silent in *.
  destruct (body x) as [[b|e] t]; destruct release as [r t']; cbn [snd] in *;
    rewrite forallb_app, Hb, Hr; reflexivity.
Qed.

Lemma silent_for_each {A : Type} (l : list A) (body : A -> M unit) :
  (forall x, silent P (body x)) -> silent P (for_each l body).
Proof.
  intros Hb. induction l as [|x r IH]; [reflexivity|].
  cbn [for_each]. apply silent_bind; [apply Hb|]. intros _. exact IH.
Qed.

Lemma silent_for_fold {A B : Type} (l : list A) (body : B -> A -> M B) :
  (forall acc x, silent P (body acc x)) -> forall acc, silent P (for_fold l acc body).
Proof.
  intros Hb. induction l as [|x r IH]; intros acc; [reflexivity|].
  cbn [for_fold]. apply silent_bind; [apply Hb|]. intros acc'. apply IH.
Qed.

End Silence.

(** Takes a stage apart, down to its calls. *)
Ltac silence :=
  repeat first
    [ apply silent_ret
    | apply silent_raise
    | apply silent_emit; reflexivity
    | apply silent_call; [reflexivity | intro; reflexivity]
    | apply silent_with; [| |intros]
    | apply silent_try_except_class; [|intros]
    | apply silent_try_except; [|intros]
    | apply silent_for_each; intros
    | apply silent_for_fold; intros
    | apply silent_bind; [|intros]
    | match goal with
      | |- silent _ (match ?x with _ => _ end) => destruct x
      | |- silent _ ((match ?x with _ => _ end) _) => destruct x
      end
    | progress cbv beta zeta ].

Lemma staged_elsewhere (f : str) :
  startswith (path_join (lit "unprocessed_data") f) (lit "processed_data/") = false.
Proof.
  unfold path_join. destruct f as [|c r]; [reflexivity|].
  destruct (startswith (c :: r) (lit "/")) eqn:Hs; [|reflexivity].
  cbn in Hs. apply andb_true_iff in Hs as [Hc _]. apply N.eqb_eq in Hc. subst c.
  reflexivity.
Qed.

Section StageSilence.
Context {U : Unicode}.
Variable E : env.

Lemma find_data_files_early : silent early_event (find_data_files E).
Proof. unfold find_data_files. silence. Qed.

Lemma configure_data_dir_early data_files :
  silent early_event (configure_data_dir E data_files (lit "unprocessed_data")).
Proof.
  unfold configure_data_dir. silence.
  apply silent_call; [|intros e]; unfold early_event;
    cbn [archive_event database_event database_op];
    rewrite staged_elsewhere; reflexivity.
Qed.

Lemma create_df_dict_early data_files data_directory :
  silent early_event (create_df_dict E data_files data_directory).
Proof. unfold create_df_dict, create_df_dict_loop, load_file. silence. Qed.

Lemma clean_file_names_early data_files dataframe :
  silent early_event (clean_file_names data_files dataframe).
Proof. unfold clean_file_names. silence. Qed.

Lemma process_dataframes_early dataframes_dict :
  silent early_event (process_dataframes dataframes_dict).
Proof. unfold process_dataframes, clean_text_of. silence. Qed.

Lemma save_df_to_csv_early {A : Type} (a : A) dataframe_dict :
  silent early_event (save_df_to_csv E a dataframe_dict).
Proof. unfold save_df_to_csv. silence. Qed.

Lemma load_config_early : silent early_event (load_config E).
Proof. unfold load_config. silence. Qed.

Lemma import_to_postgres_no_archive table_schema conn_dict :
  silent (fun ev => negb (archive_event ev)) (import_to_postgres E table_schema conn_dict).
Proof. unfold import_to_postgres, import_transaction, import_table. silence. Qed.

Lemma move_processed_files_no_database processed_files :
  silent (fun ev => negb (database_event ev)) (move_processed_files E processed_files).
Proof. unfold move_processed_files. silence. Qed.

End StageSilence.

Lemma on_trace_eq {A : Type} (m : M A) (t : list event) :
  on_trace m t = (fst m, t ++ snd m).
Proof. unfold on_trace. destruct m. reflexivity. Qed.

Lemma on_trace_ok {A : Type} (m : M A) (a : A) (t : list event) :
  fst m = Ok a -> on_trace m t = (Ok a, t ++ snd m).
Proof. intros H. rewrite on_trace_eq, H. reflexivity. Qed.

Lemma early_no_archive t :
  forallb early_event t = true -> forallb (fun ev => negb (archive_event ev)) t = true.
Proof.
  intros H. rewrite forallb_forall in *. intros ev Hev. specialize (H ev Hev).
  unfold early_event in H. apply andb_true_iff in H. tauto.
Qed.

Lemma early_no_database t :
  forallb early_event t = true -> forallb (fun ev => negb (database_event ev)) t = true.
Proof.
  intros H. rewrite forallb_forall in *. intros ev Hev. specialize (H ev Hev).
  unfold early_event in H. apply andb_true_iff in H. tauto.
Qed.

(** A trace without database calls leaves the counts and the database as
    they are. *)
Lemma no_database_counts t :
  forallb (fun ev => negb (database_event ev)) t = true ->
  commits t = 0 /\ rollbacks t = 0 /\ forall s, fold_left db_step t s = s.
Proof.
  induction t as [|ev t IH]; [repeat split|]. cbn [forallb]. intros H.
  apply andb_true_iff in H as [Hev Ht]. destruct (IH Ht) as (Hc & Hr & Hs).
  rewrite commits_cons, rollbacks_cons, Hc, Hr. cbn [fold_left].
  destruct ev as [o|o e]; destruct o; cbn in Hev; try discriminate;
    repeat split; intros s; apply Hs.
Qed.

Lemma db_after_around pre mid post :
  forallb (fun ev => negb (database_event ev)) pre = true ->
  forallb (fun ev => negb (database_event ev)) post = true ->
  db_after ((pre ++ mid) ++ post) = db_after mid.
Proof.
  intros Hpre Hpost. unfold db_after. rewrite !fold_left_app.
  destruct (no_database_counts pre Hpre) as (_ & _ & Hs).
  destruct (no_database_counts post Hpost) as (_ & _ & Hs').
  rewrite Hs, Hs'. reflexivity.
Qed.

(** Where a trace is cut at an event that [P] excludes, a prefix of events
    that [P] allows lies before the cut. *)
Lemma cut_after_prefix (P : event -> bool) pre post t1 ev t2 :
  forallb P pre = true -> P ev = false ->
  pre ++ post = t1 ++ ev :: t2 ->
  exists mid, t1 = pre ++ mid /\ post = mid ++ ev :: t2.
Proof.
  revert t1. induction pre as [|x pre IH]; intros t1 Hpre Hev Heq.
  - exists t1. split; [reflexivity | exact Heq].
  - cbn [forallb] in Hpre. apply andb_true_iff in Hpre as [Hx Hpre].
    destruct t1 as [|y t1]; cbn [app] in Heq; injection Heq as Hxy Heq.
    + subst x. rewrite Hev in Hx. discriminate.
    + subst y. destruct (IH t1 Hpre Hev Heq) as (mid & -> & Hpost).
      exists mid. split; [reflexivity | exact Hpost].
Qed.

(** Runs the next stage of [main], keeping what is known of its trace. *)
Ltac run_stage Hs Heq x :=
  match goal with
  | |- context [on_trace ?m ?t] =>
      rewrite !(on_trace_eq m t);
      let S := fresh "S" in
      pose proof Hs as S; unfold silent in S;
      destruct m as [[x|?] ?] eqn:Heq; cbn [fst snd] in S |- *; cbv beta iota
  end.

(** Runs the next stage of [main], which returns by [Hret]. *)
Ltac returning_stage Hret Hs :=
  match goal with
  | |- context [on_trace ?m ?t] =>
      rewrite (on_trace_ok m _ t Hret);
      let S := fresh "S" in
      pose proof Hs as S; unfold silent in S; cbv beta iota
  end.

Ltac no_archive :=
  rewrite !forallb_app; cbn [forallb archive_event negb andb];
  repeat match goal with
         | H : forallb early_event ?t = true |- _ =>
             rewrite (early_no_archive t H); clear H
         | H : forallb (fun ev => negb (archive_event ev)) ?t = true |- _ =>
             rewrite H; clear H
         end;
  reflexivity.

Ltac no_database :=
  rewrite !forallb_app; cbn [forallb database_event database_op negb andb];
  repeat match goal with
         | H : forallb early_event ?t = true |- _ =>
             rewrite (early_no_database t H); clear H
         | H : forallb (fun ev => negb (database_event ev)) ?t = true |- _ =>
             rewrite H; clear H
         end;
  reflexivity.

(** A run that stops before the archive stage. *)
Ltac stopped_run :=
  eexists; eexists; exists []; rewrite app_nil_r;
  split; [reflexivity|];
  split; [no_archive|];
  split; [reflexivity|];
  let H := fresh in intros [H|H]; [exfalso; apply H; reflexivity | discriminate H].

Section MainFacts.
Context {U : Unicode}.
Variable E : env.

Lemma import_returned table_schema conn_dict u t :
  import_to_postgres E table_schema conn_dict = (Ok u, t) ->
  In (Done Commit) t /\ commits t = 1 /\ rollbacks t = 0.
Proof.
  destruct (import_loop_cases E table_schema) as (tl & Hrun & _ & Hc & Hr & _).
  unfold import_to_postgres, import_transaction, with_, try_except, bind, call, log, emit, raise.
  rewrite Hrun.
  destruct (raises E (Connect conn_dict)); [discriminate|].
  destruct (raises E OpenCursor); [discriminate|].
  destruct (first_failure E table_schema);
    [destruct (raises E Rollback); discriminate|].
  destruct (raises E Commit); [destruct (raises E Rollback); discriminate|].
  cbn [fst snd app]. intros H. injection H as _ <-.
  split; [|split].
  - right. right. apply in_or_app. left. apply in_or_app. left.
    apply in_or_app. right. left. reflexivity.
  - count_calls. rewrite ?Hc. reflexivity.
  - count_calls. rewrite ?Hr. reflexivity.
Qed.

(** The trace of a run in two parts: the stages up to the database load,
    and the archive stage with the last record of the log. *)
Lemma main_run :
  exists o pre post,
    main (pgdatahub E) [] = (o, pre ++ post) /\
    forallb (fun ev => negb (archive_event ev)) pre = true /\
    forallb (fun ev => negb (database_event ev)) post = true /\
    (post <> [] \/ o = Returned ->
     In (Done Commit) pre /\ commits pre = 1 /\ rollbacks pre = 0).
Proof.
  unfold main, main_body, sbind, slog, sret, sraise.
  cbn [run_find_data_files run_configure_data_dir run_create_df_dict run_clean_file_names
       run_process_dataframes run_save_df_to_csv run_load_config run_import_to_postgres
       run_move_processed_files run_log pgdatahub].
  run_stage (find_data_files_early E) H1 data_files; [|stopped_run].
  destruct data_files as [|f fs]; [stopped_run|]. cbv beta iota.
  run_stage (configure_data_dir_early E (f :: fs)) H2 u; [|stopped_run].
  run_stage (create_df_dict_early E (f :: fs) (lit "unprocessed_data")) H3 loaded;
    [|stopped_run].
  destruct loaded as [|table tables]; [stopped_run|]. cbv beta iota.
  run_stage (clean_file_names_early (dict_keys (table :: tables)) (table :: tables)) H4 renamed;
    [|stopped_run].
  destruct renamed as [datasets df_dict]. cbv beta iota.
  run_stage (process_dataframes_early df_dict) H5 processed; [|stopped_run].
  destruct processed as [schemas df_dict']. cbv beta iota.
  run_stage (save_df_to_csv_early E datasets df_dict') H6 u6; [|stopped_run].
  run_stage (load_config_early E) H7 db_config; [|stopped_run].
  run_stage (import_to_postgres_no_archive E schemas db_config) H8 u8; [|stopped_run].
  destruct (import_returned schemas db_config _ _ H8) as (Hin & Hc & Hr).
  pose proof (no_database_counts _ (early_no_database _ S)) as (C0 & R0 & _).
  pose proof (no_database_counts _ (early_no_database _ S0)) as (C1 & R1 & _).
  pose proof (no_database_counts _ (early_no_database _ S1)) as (C2 & R2 & _).
  pose proof (no_database_counts _ (early_no_database _ S2)) as (C3 & R3 & _).
  pose proof (no_database_counts _ (early_no_database _ S3)) as (C4 & R4 & _).
  pose proof (no_database_counts _ (early_no_database _ S4)) as (C5 & R5 & _).
  pose proof (no_database_counts _ (early_no_database _ S5)) as (C6 & R6 & _).
  run_stage (move_processed_files_no_database E datasets) H9 u9;
    match goal with
    | |- context [(?pre ++ ?moves) ++ [?last]] =>
        eexists; exists pre, (moves ++ [last]);
        rewrite <- app_assoc; split; [reflexivity|];
        split; [no_archive|];
        split; [rewrite forallb_app, S7; reflexivity|];
        intros _; split; [apply in_or_app; right; exact Hin|];
        count_calls; rewrite C0, C1, C2, C3, C4, C5, C6, Hc, R0, R1, R2, R3, R4, R5, R6, Hr;
        split; reflexivity
    end.
Qed.

(** X13. Nothing is archived before the transaction is committed.  In the
    trace of a run of [main] over the stages of main.py, before every call
    that makes the directory "processed_data" or moves a file into it,
    [conn.commit()] has returned, it was called once, and [conn.rollback()]
    was not called. *)
Theorem main_archives_after_commit (t1 t2 : list event) (ev : event) :
  snd (main (pgdatahub E) []) = t1 ++ ev :: t2 ->
  archive_event ev = true ->
  In (Done Commit) t1 /\ commits t1 = 1 /\ rollbacks t1 = 0.
Proof.
  destruct main_run as (o & pre & post & Hrun & Hpre & Hpost & Hcommit).
  rewrite Hrun. cbn [snd]. intros Hcut Hev.
  destruct (cut_after_prefix _ pre post t1 ev t2 Hpre) as (mid & Ht1 & Hmid);
    [rewrite Hev; reflexivity | exact Hcut |].
  subst t1.
  destruct Hcommit as (Hin & Hc & Hr).
  { left. rewrite Hmid. destruct mid; discriminate. }
  rewrite Hmid, forallb_app in Hpost. apply andb_true_iff in Hpost as [Hquiet _].
  destruct (no_database_counts mid Hquiet) as (Hc' & Hr' & _).
  rewrite commits_app, rollbacks_app, Hc, Hr, Hc', Hr'.
  split; [apply in_or_app; left; exact Hin|]. split; reflexivity.
Qed.

(** X14. [main] returns, so that the process ends with status 0, only after
    a commit: in the trace of a run that returns, [conn.commit()] was called
    once and returned, and [conn.rollback()] was not called. *)
Theorem main_returns_after_commit :
  fst (main (pgdatahub E) []) = Returned ->
  In (Done Commit) (snd (main (pgdatahub E) [])) /\
  commits (snd (main (pgdatahub E) [])) = 1 /\
  rollbacks (snd (main (pgdatahub E) [])) = 0.
Proof.
  destruct main_run as (o & pre & post & Hrun & Hpre & Hpost & Hcommit).
  rewrite Hrun. cbn [fst snd]. intros Ho.
  destruct (Hcommit (or_intror Ho)) as (Hin & Hc & Hr).
  destruct (no_database_counts post Hpost) as (Hc' & Hr' & _).
  rewrite commits_app, rollbacks_app, Hc, Hr, Hc', Hr'.
  split; [apply in_or_app; left; exact Hin|]. split; reflexivity.
Qed.

End MainFacts.

(** *** A run in which no call raises *)

Section CleanRun.
Context {U : Unicode}.
Variable E : env.

Lemma after_files_nodup data_path data_files :
  NoDup (dict_keys (fst (after_files E data_path data_files))).
Proof.
  unfold after_files.
  assert (H : forall l acc, NoDup (dict_keys (fst acc)) ->
                            NoDup (dict_keys (fst (fold_left (after_file E data_path) l acc)))).
  { induction l as [|f r IH]; intros acc Hacc; [exact Hacc|].
    cbn [fold_left]. apply IH. unfold after_file.
    destruct (tables_of_file E data_path f); cbn [fst]; [apply dict_update_nodup|];
      exact Hacc. }
  apply H. constructor.
Qed.

Lemma save_df_to_csv_returns {A : Type} (a : A) (dataframe_dict : dict DataFrame) :
  (forall o, raises E o = None) ->
  fst (save_df_to_csv E a dataframe_dict) = Ok tt.
Proof.
  intros Hq. unfold save_df_to_csv.
  induction dataframe_dict as [|[k df] rest IH]; [reflexivity|].
  cbn [for_each]. rewrite (fst_bind_ok _ _ tt); [exact IH|].
  unfold bind, call, log, emit. rewrite Hq. reflexivity.
Qed.

Lemma first_failure_quiet table_schema :
  (forall o, raises E o = None) -> first_failure E table_schema = None.
Proof.
  intros Hq. induction table_schema as [|[file_name schema] rest IH]; [reflexivity|].
  cbn [first_failure table_failure]. rewrite !Hq. exact IH.
Qed.

Lemma archive_failure_quiet files :
  (forall o, raises E o = None) -> archive_failure E files = None.
Proof.
  intros Hq. induction files as [|f rest IH]; [reflexivity|].
  cbn [archive_failure]. rewrite Hq. exact IH.
Qed.

Lemma import_to_postgres_commits table_schema conn_dict :
  raises E (Connect conn_dict) = None ->
  raises E OpenCursor = None ->
  first_failure E table_schema = None ->
  raises E Commit = None ->
  fst (import_to_postgres E table_schema conn_dict) = Ok tt /\
  db_after (snd (import_to_postgres E table_schema conn_dict))
  = {| pending := []; durable := dict_keys table_schema |}.
Proof.
  intros Hconn Hcur Hnone Hcommit.
  destruct (import_loop_cases E table_schema) as (t & Hrun & Hopen & Hc & Hr & Hex).
  unfold import_to_postgres, import_transaction, with_, try_except, bind, call, log, emit, raise.
  rewrite Hconn, Hcur, Hrun, Hnone, Hcommit. cbn [fst snd app].
  split; [reflexivity|]. rewrite <- ?app_assoc. cbn [app].
  rewrite (db_after_session _ _ _ Hopen), (Hex Hnone). reflexivity.
Qed.

Lemma move_processed_files_returns processed_files :
  (forall o, raises E o = None) ->
  fst (move_processed_files E processed_files) = Ok tt.
Proof.
  intros Hq. destruct (archive_loop E processed_files) as (t & Hrun & _).
  unfold move_processed_files. cbv zeta. rewrite Hrun, (archive_failure_quiet _ Hq).
  unfold try_except, bind, call, log, emit. rewrite Hq. reflexivity.
Qed.

Lemma load_config_returns database :
  (forall o, raises E o = None) ->
  dict_get (lit "database") (json_config E (lit "config.json")) = Some database ->
  fst (load_config E) = Ok database.
Proof.
  intros Hq Hdb. unfold load_config, with_, bind, call, emit, ret. rewrite !Hq, Hdb.
  reflexivity.
Qed.

Lemma first_non_text_renamed (d : dict DataFrame) :
  first_non_text (map renamed_entry d) = first_non_text d.
Proof.
  induction d as [|[k df] rest IH]; [reflexivity|].
  cbn [map renamed_entry first_non_text fst snd]. rewrite IH. reflexivity.
Qed.

(** The first four stages of a run in which no call raises and the cleaned
    names are distinct. *)
Lemma clean_run_start :
  (forall o, raises E o = None) ->
  let data_files := filter is_data_file (dir_entries E (cwd E)) in
  let loaded :=
    fst (after_files E (path_join (cwd E) (lit "unprocessed_data")) data_files) in
  NoDup (map clean_text (dict_keys loaded)) ->
  fst (find_data_files E) = Ok data_files /\
  fst (configure_data_dir E data_files (lit "unprocessed_data")) = Ok tt /\
  fst (create_df_dict E data_files (lit "unprocessed_data")) = Ok loaded /\
  fst (clean_file_names (dict_keys loaded) loaded)
  = Ok (map clean_text (dict_keys loaded), map renamed_entry loaded) /\
  NoDup (dict_keys (map renamed_entry loaded)).
Proof.
  intros Hq data_files loaded Hnames.
  split; [exact (find_data_files_returns E (Hq _))|].
  split.
  { apply configure_data_dir_returns. intros e He. rewrite Hq in He. discriminate. }
  split; [exact (proj1 (create_df_dict_returns E data_files (lit "unprocessed_data")))|].
  split.
  - apply clean_file_names_loop.
    pose proof (rename_loop_exact loaded [] [] Hnames) as H.
    cbn [map app] in H. rewrite app_nil_r in H. exact H.
  - unfold dict_keys, renamed_entry. rewrite map_map. cbn [fst].
    unfold dict_keys in Hnames. rewrite map_map in Hnames. exact Hnames.
Qed.

(** X15. A run in which no call raises loads every table.  When at least
    one table is loaded from the data files of the working directory, the
    names of the loaded tables clean to pairwise distinct names, every
    column label of the loaded tables is a str and "config.json" has a
    "database" section, [main] returns, and the tables that are durable in
    the database after the run are the cleaned names of the loaded tables,
    in their order. *)
Theorem main_loads_every_table (database : dict str) :
  (forall o, raises E o = None) ->
  let data_files := filter is_data_file (dir_entries E (cwd E)) in
  let loaded :=
    fst (after_files E (path_join (cwd E) (lit "unprocessed_data")) data_files) in
  loaded <> [] ->
  NoDup (map clean_text (dict_keys loaded)) ->
  first_non_text loaded = None ->
  dict_get (lit "database") (json_config E (lit "config.json")) = Some database ->
  fst (main (pgdatahub E) []) = Returned /\
  durable (db_after (snd (main (pgdatahub E) []))) = map clean_text (dict_keys loaded).
Proof.
  intros Hq data_files loaded Hloaded Hnames Htext Hdb.
  destruct (clean_run_start Hq Hnames) as (R1 & R2 & R3 & R4 & Hnd').
  change (fst (find_data_files E) = Ok data_files) in R1.
  change (fst (configure_data_dir E data_files (lit "unprocessed_data")) = Ok tt) in R2.
  change (fst (create_df_dict E data_files (lit "unprocessed_data")) = Ok loaded) in R3.
  change (fst (clean_file_names (dict_keys loaded) loaded)
          = Ok (map clean_text (dict_keys loaded), map renamed_entry loaded)) in R4.
  change (NoDup (dict_keys (map renamed_entry loaded))) in Hnd'.
  set (renamed := map renamed_entry loaded) in *.
  assert (Htext' : first_non_text renamed = None).
  { unfold renamed. rewrite first_non_text_renamed. exact Htext. }
  pose proof (process_dataframes_returns renamed Htext' Hnd') as R5.
  set (schemas := map (fun kv => (fst kv, table_schema_of (cleaned (snd kv)))) renamed) in *.
  set (frames := map (fun kv => (fst kv, cleaned (snd kv))) renamed) in *.
  pose proof (save_df_to_csv_returns (map clean_text (dict_keys loaded)) frames Hq) as R6.
  pose proof (load_config_returns database Hq Hdb) as R7.
  destruct (import_to_postgres_commits schemas database (Hq _) (Hq _)
              (first_failure_quiet schemas Hq) (Hq _)) as [R8 Hdurable].
  pose proof (move_processed_files_returns (map clean_text (dict_keys loaded)) Hq) as R9.
  assert (Hfiles : data_files <> []).
  { intros Hnil. apply Hloaded. unfold loaded. rewrite Hnil. reflexivity. }
  unfold main, main_body, sbind, slog, sret, sraise.
  cbn [run_find_data_files run_configure_data_dir run_create_df_dict run_clean_file_names
       run_process_dataframes run_save_df_to_csv run_load_config run_import_to_postgres
       run_move_processed_files run_log pgdatahub].
  returning_stage R1 (find_data_files_early E).
  destruct data_files as [|f fs] eqn:Hfs; [contradiction|]. cbv beta iota.
  returning_stage R2 (configure_data_dir_early E (f :: fs)).
  returning_stage R3 (create_df_dict_early E (f :: fs) (lit "unprocessed_data")).
  destruct loaded as [|table tables] eqn:Hl; [contradiction|]. cbv beta iota.
  returning_stage R4
    (clean_file_names_early (dict_keys (table :: tables)) (table :: tables)).
  returning_stage R5 (process_dataframes_early renamed).
  returning_stage R6 (save_df_to_csv_early E (map clean_text (dict_keys (table :: tables))) frames).
  returning_stage R7 (load_config_early E).
  returning_stage R8 (import_to_postgres_no_archive E schemas database).
  returning_stage R9
    (move_processed_files_no_database E (map clean_text (dict_keys (table :: tables)))).
  cbn [fst snd]. split; [reflexivity|].
  rewrite <- (app_assoc _ (snd (move_processed_files E _))).
  rewrite db_after_around, Hdurable.
  - cbn [durable]. unfold schemas, renamed, dict_keys, renamed_entry.
    rewrite !map_map. cbn [fst]. reflexivity.
  - no_database.
  - no_database.
Qed.

(** X16. A column label that is no str stops the run, although no call
    raises.  When the names of the loaded tables clean to pairwise distinct
    names and a loaded table has a label that is no str, [main] ends with
    [sys.exit(1)]: the last record of its log is the TypeError of
    [clean_text], and no call on the database was made. *)
Theorem main_stops_on_non_text_label (type_name : str) :
  (forall o, raises E o = None) ->
  let data_files := filter is_data_file (dir_entries E (cwd E)) in
  let loaded :=
    fst (after_files E (path_join (cwd E) (lit "unprocessed_data")) data_files) in
  NoDup (map clean_text (dict_keys loaded)) ->
  first_non_text loaded = Some type_name ->
  fst (main (pgdatahub E) []) = SystemExit 1 /\
  forallb (fun ev => negb (database_event ev)) (snd (main (pgdatahub E) [])) = true /\
  exists t,
    snd (main (pgdatahub E) [])
    = t ++ [Done (Log ERROR (lit "Script failed: %s")
                    [AStr (exn_msg (not_iterable type_name))])].
Proof.
  intros Hq data_files loaded Hnames Htext.
  destruct (clean_run_start Hq Hnames) as (R1 & R2 & R3 & R4 & Hnd').
  change (fst (find_data_files E) = Ok data_files) in R1.
  change (fst (configure_data_dir E data_files (lit "unprocessed_data")) = Ok tt) in R2.
  change (fst (create_df_dict E data_files (lit "unprocessed_data")) = Ok loaded) in R3.
  change (fst (clean_file_names (dict_keys loaded) loaded)
          = Ok (map clean_text (dict_keys loaded), map renamed_entry loaded)) in R4.
  change (NoDup (dict_keys (map renamed_entry loaded))) in Hnd'.
  set (renamed := map renamed_entry loaded) in *.
  assert (R5 : fst (process_dataframes renamed) = Raise (not_iterable type_name)).
  { rewrite process_dataframes_cases. unfold renamed.
    rewrite first_non_text_renamed, Htext. reflexivity. }
  assert (Hloaded : loaded <> []).
  { intros Hnil. rewrite Hnil in Htext. discriminate. }
  assert (Hfiles : data_files <> []).
  { intros Hnil. apply Hloaded. unfold loaded. rewrite Hnil. reflexivity. }
  unfold main, main_body, sbind, slog, sret, sraise.
  cbn [run_find_data_files run_configure_data_dir run_create_df_dict run_clean_file_names
       run_process_dataframes run_save_df_to_csv run_load_config run_import_to_postgres
       run_move_processed_files run_log pgdatahub].
  returning_stage R1 (find_data_files_early E).
  destruct data_files as [|f fs] eqn:Hfs; [contradiction|]. cbv beta iota.
  returning_stage R2 (configure_data_dir_early E (f :: fs)).
  returning_stage R3 (create_df_dict_early E (f :: fs) (lit "unprocessed_data")).
  destruct loaded as [|table tables] eqn:Hl; [contradiction|]. cbv beta iota.
  returning_stage R4
    (clean_file_names_early (dict_keys (table :: tables)) (table :: tables)).
  pose proof (process_dataframes_early renamed) as S3. unfold silent in S3.
  rewrite (on_trace_eq (process_dataframes renamed)), R5. cbn [fst snd].
  split; [reflexivity|]. split; [no_database|].
  eexists. reflexivity.
Qed.

End CleanRun.

(** The working directory holds "Sales 2024.csv" and no call raises: the
    file "sales_2024.csv" is moved into "processed_data" after the
    commit. *)
Lemma main_archives_after_commit_witness :
  In (Done Commit)
     (firstn 33 (snd (main (@pgdatahub basic_unicode (quiet_env [lit "Sales 2024.csv"])) []))).
Proof.
  refine (proj1 (@main_archives_after_commit basic_unicode (quiet_env [lit "Sales 2024.csv"])
                   (firstn 33 (snd (main (@pgdatahub basic_unicode
                                            (quiet_env [lit "Sales 2024.csv"])) [])))
                   (skipn 34 (snd (main (@pgdatahub basic_unicode
                                           (quiet_env [lit "Sales 2024.csv"])) [])))
                   (Done (Rename (lit "/work/sales_2024.csv")
                                 (lit "processed_data/sales_2024.csv")))
                   _ _));
    vm_compute; reflexivity.
Defined.

Lemma main_returns_after_commit_witness :
  commits (snd (main (@pgdatahub basic_unicode (quiet_env [lit "Sales 2024.csv"])) [])) = 1 /\
  rollbacks (snd (main (@pgdatahub basic_unicode (quiet_env [lit "Sales 2024.csv"])) [])) = 0.
Proof.
  refine (proj2 (@main_returns_after_commit basic_unicode
                   (quiet_env [lit "Sales 2024.csv"]) _)).
  vm_compute. reflexivity.
Defined.

Lemma main_loads_every_table_witness :
  fst (main (@pgdatahub basic_unicode (quiet_env [lit "Sales 2024.csv"])) []) = Returned /\
  durable (db_after
             (snd (main (@pgdatahub basic_unicode (quiet_env [lit "Sales 2024.csv"])) [])))
  = [lit "sales_2024"].
Proof.
  apply (@main_loads_every_table basic_unicode (quiet_env [lit "Sales 2024.csv"])
           [(lit "host", lit "localhost")]).
  - intros o. reflexivity.
  - vm_compute. discriminate.
  - apply NoDup_cons; [intros []|apply NoDup_nil].
  - reflexivity.
  - reflexivity.
Defined.

(** The workbook "report.xlsx" has the number 2024 as a header cell. *)
Lemma main_stops_on_non_text_label_witness :
  fst (main (@pgdatahub basic_unicode numeric_header) []) = SystemExit 1 /\
  forallb (fun ev => negb (database_event ev))
    (snd (main (@pgdatahub basic_unicode numeric_header) [])) = true.
Proof.
  destruct (@main_stops_on_non_text_label basic_unicode numeric_header (lit "int"))
    as (Hexit & Hquiet & _).
  - intros o. reflexivity.
  - apply NoDup_cons; [intros []|apply NoDup_nil].
  - reflexivity.
  - split; [exact Hexit | exact Hquiet].
Defined.
